(** * RealityFixer: the annotation overlay and the diagnosis sanitiser

    A shallow embedding of [src/components/AnnotationCanvas.tsx] (the
    render pass that paints annotations over the photo), of the data
    model of [src/types.ts], of [analyzeImage] (the Gemini service: the
    request it builds and its sanitising tail), of the state and the
    conditional rendering of [App.tsx], and of the tests
    [ResultsPanel.tsx] makes on a result.

    Modelling conventions.
    - A JavaScript [number] is a real number ([R]) wherever the shapes
      are concerned: the arithmetic of the source is read over the reals,
      and NaN and the infinities are outside the model.  The coordinate
      mapping itself is also given as the program computes it, in
      binary64 (module [Binary64]), since there it is not exact.  [Math.atan2], [Math.cos],
      [Math.sin] and [Math.PI] are the real functions and the real
      constant.
    - A [CanvasRenderingContext2D] is a record of the drawing attributes
      the source assigns, the current path, and the surface as a display
      list: every painting call appends what it paints together with the
      attributes that determine its pixels.  Each method call is also
      written to a log.  Of the methods the source calls, [arc] is the
      one that can raise: IndexSizeError on a negative radius.
    - Code that threads [ctx] through many calls is written in a small
      monad [Draw] of state, log and exception.
    - Font metrics ([measureText]) belong to the browser; they are a
      section variable [textWidth].  So are [JSON.parse],
      [generateContent] and [toLowerCase] where they are called.
    - The application is a transition system: its state, and the events
      the rendered screen offers (a capture, a settled request, a click
      on a reset control, a resize). *)

From Stdlib Require Import Reals Lra List String ZArith Lia.
From Stdlib Require PrimFloat.
From stdpp Require Import gmap strings.
Import ListNotations.

Set Warnings "-register-all".

Local Open Scope string_scope.
Local Open Scope list_scope.
Local Open Scope R_scope.

(** [a === b] on numbers. *)
Definition Req_bool (a b : R) : bool := if Req_dec_T a b then true else false.

(** ** The 2D drawing context *)

Module Canvas2D.

(** Segments of the current path. *)
Inductive Seg : Type :=
| MoveTo (x y : R)
| LineTo (x y : R)
| Arc (x y r a0 a1 : R).

(** [shadowColor] and [shadowBlur] at the time of a painting call. *)
Record Shadow : Type := mkShadow { sh_color : string; sh_blur : R }.

(** What a painting call leaves on the surface. *)
Inductive Painted : Type :=
| FilledRect (x y w h : R) (fill : string) (sh : Shadow)
| StrokedRect (x y w h : R) (stroke : string) (lw : R) (sh : Shadow)
| StrokedPath (p : list Seg) (stroke : string) (lw : R) (sh : Shadow)
| FilledPath (p : list Seg) (fill : string) (sh : Shadow)
| FilledText (t : string) (x y : R) (fill : string) (fnt : string) (sh : Shadow)
| Erased (x y w h : R).

(** Method calls on the context, as logged. *)
Inductive Call : Type :=
| clearRect_ (x y w h : R)
| fillRect_ (x y w h : R)
| strokeRect_ (x y w h : R)
| beginPath_
| moveTo_ (x y : R)
| lineTo_ (x y : R)
| arc_ (x y r a0 a1 : R)
| stroke_
| fill_
| measureText_ (t : string)
| fillText_ (t : string) (x y : R).

Record Ctx : Type := mkCtx {
  strokeStyle : string;
  fillStyle : string;
  lineWidth : R;
  shadowColor : string;
  shadowBlur : R;
  font : string;
  path : list Seg;
  bitmapWidth : R;
  bitmapHeight : R;
  surface : list Painted
}.

Definition shadow (c : Ctx) : Shadow := mkShadow (shadowColor c) (shadowBlur c).

Inductive Exception : Type :=
| IndexSizeError.

(** How a piece of code ends: with a value, or by throwing. *)
Inductive Completion (A : Type) : Type :=
| Normal (a : A)
| Throw (e : Exception).
Arguments Normal {A} a.
Arguments Throw {A} e.

(** The monad: from a context to a completion, the context after, and
    the calls made. *)
Definition Draw (A : Type) : Type := Ctx -> Completion A * Ctx * list Call.

Definition ret {A : Type} (a : A) : Draw A := fun c => (Normal a, c, []).

Definition bind {A B : Type} (m : Draw A) (f : A -> Draw B) : Draw B :=
  fun c =>
    let r1 := m c in
    match fst (fst r1) with
    | Normal a =>
        let r2 := f a (snd (fst r1)) in
        (fst (fst r2), snd (fst r2), snd r1 ++ snd r2)
    | Throw e => (Throw e, snd (fst r1), snd r1)
    end.

Definition outcome {A : Type} (m : Draw A) (c : Ctx) : Completion A := fst (fst (m c)).
Definition exec {A : Type} (m : Draw A) (c : Ctx) : Ctx := snd (fst (m c)).
Definition calls {A : Type} (m : Draw A) (c : Ctx) : list Call := snd (m c).
Definition painted {A : Type} (m : Draw A) (c : Ctx) : list Painted :=
  surface (exec m c).

(** Attribute assignments. *)
Definition set_strokeStyle (v : string) : Draw unit := fun c =>
  (Normal tt,
   mkCtx v (fillStyle c) (lineWidth c) (shadowColor c) (shadowBlur c)
         (font c) (path c) (bitmapWidth c) (bitmapHeight c) (surface c), []).
Definition set_fillStyle (v : string) : Draw unit := fun c =>
  (Normal tt,
   mkCtx (strokeStyle c) v (lineWidth c) (shadowColor c) (shadowBlur c)
         (font c) (path c) (bitmapWidth c) (bitmapHeight c) (surface c), []).
Definition set_lineWidth (v : R) : Draw unit := fun c =>
  (Normal tt,
   mkCtx (strokeStyle c) (fillStyle c) v (shadowColor c) (shadowBlur c)
         (font c) (path c) (bitmapWidth c) (bitmapHeight c) (surface c), []).
Definition set_shadowColor (v : string) : Draw unit := fun c =>
  (Normal tt,
   mkCtx (strokeStyle c) (fillStyle c) (lineWidth c) v (shadowBlur c)
         (font c) (path c) (bitmapWidth c) (bitmapHeight c) (surface c), []).
Definition set_shadowBlur (v : R) : Draw unit := fun c =>
  (Normal tt,
   mkCtx (strokeStyle c) (fillStyle c) (lineWidth c) (shadowColor c) v
         (font c) (path c) (bitmapWidth c) (bitmapHeight c) (surface c), []).
Definition set_font (v : string) : Draw unit := fun c =>
  (Normal tt,
   mkCtx (strokeStyle c) (fillStyle c) (lineWidth c) (shadowColor c)
         (shadowBlur c) v (path c) (bitmapWidth c) (bitmapHeight c) (surface c), []).

Definition with_path (p : list Seg) (c : Ctx) : Ctx :=
  mkCtx (strokeStyle c) (fillStyle c) (lineWidth c) (shadowColor c)
        (shadowBlur c) (font c) p (bitmapWidth c) (bitmapHeight c) (surface c).
Definition with_surface (s : list Painted) (c : Ctx) : Ctx :=
  mkCtx (strokeStyle c) (fillStyle c) (lineWidth c) (shadowColor c)
        (shadowBlur c) (font c) (path c) (bitmapWidth c) (bitmapHeight c) s.
Definition paint (p : Painted) (c : Ctx) : Ctx := with_surface (surface c ++ [p]) c.

(** [clearRect] erases a rectangle; when the rectangle is the whole
    bitmap, nothing painted before is left. *)
Definition covers_bitmap (x y w h : R) (c : Ctx) : bool :=
  Req_bool x 0 && Req_bool y 0 && Req_bool w (bitmapWidth c) && Req_bool h (bitmapHeight c).

Definition clearRect (x y w h : R) : Draw unit := fun c =>
  (Normal tt,
   if covers_bitmap x y w h c then with_surface [] c else paint (Erased x y w h) c,
   [clearRect_ x y w h]).

(** The rectangle methods take any width and height, negative ones
    too, and never raise. *)
Definition fillRect (x y w h : R) : Draw unit := fun c =>
  (Normal tt, paint (FilledRect x y w h (fillStyle c) (shadow c)) c, [fillRect_ x y w h]).
Definition strokeRect (x y w h : R) : Draw unit := fun c =>
  (Normal tt, paint (StrokedRect x y w h (strokeStyle c) (lineWidth c) (shadow c)) c,
   [strokeRect_ x y w h]).

Definition beginPath : Draw unit := fun c => (Normal tt, with_path [] c, [beginPath_]).
Definition moveTo (x y : R) : Draw unit := fun c =>
  (Normal tt, with_path (path c ++ [MoveTo x y]) c, [moveTo_ x y]).
Definition lineTo (x y : R) : Draw unit := fun c =>
  (Normal tt, with_path (path c ++ [LineTo x y]) c, [lineTo_ x y]).

(** [arc] raises IndexSizeError when the radius is negative, and leaves
    the path as it was. *)
Definition arc (x y r a0 a1 : R) : Draw unit := fun c =>
  if Rlt_dec r 0 then (Throw IndexSizeError, c, [arc_ x y r a0 a1])
  else (Normal tt, with_path (path c ++ [Arc x y r a0 a1]) c, [arc_ x y r a0 a1]).

Definition stroke : Draw unit := fun c =>
  (Normal tt, paint (StrokedPath (path c) (strokeStyle c) (lineWidth c) (shadow c)) c,
   [stroke_]).
Definition fill : Draw unit := fun c =>
  (Normal tt, paint (FilledPath (path c) (fillStyle c) (shadow c)) c, [fill_]).

Section Metrics.
(** [textWidth fnt t]: the [width] of [measureText(t)] under font [fnt]. *)
Variable textWidth : string -> string -> R.

Definition measureText (t : string) : Draw R := fun c =>
  (Normal (textWidth (font c) t), c, [measureText_ t]).
End Metrics.

Definition fillText (t : string) (x y : R) : Draw unit := fun c =>
  (Normal tt, paint (FilledText t x y (fillStyle c) (font c) (shadow c)) c,
   [fillText_ t x y]).

(** [Array.prototype.forEach]: an exception in the callback ends it. *)
Fixpoint forEach {A : Type} (l : list A) (f : A -> Draw unit) : Draw unit :=
  match l with
  | [] => ret tt
  | a :: l' => bind (f a) (fun _ => forEach l' f)
  end.

End Canvas2D.

Notation "x <- m ;; k" := (Canvas2D.bind m (fun x => k))
  (at level 100, m at next level, right associativity, only parsing).
Notation "m ;; k" := (Canvas2D.bind m (fun _ => k))
  (at level 100, right associativity, only parsing).

(** ** JavaScript values *)

Module Js.

(** A value as [JSON.parse] builds it, and [undefined]. *)
Inductive value : Type :=
| VUndefined
| VNull
| VBoolean (b : bool)
| VNumber (n : R)
| VString (s : string)
| VArray (l : list value)
| VObject (fields : gmap string value).

(** Truthiness: what [!v], [v || d] and [v && e] test. *)
Definition ToBoolean (v : value) : bool :=
  match v with
  | VUndefined | VNull => false
  | VBoolean b => b
  | VNumber n => negb (Req_bool n 0)
  | VString s => negb (String.eqb s "")
  | VArray _ | VObject _ => true
  end.

Definition Array_isArray (v : value) : bool :=
  match v with
  | VArray _ => true
  | _ => false
  end.

(** [v.k] for the property names the source reads, none of which is
    defined on a prototype.  [None] is the TypeError of reading a
    property of [null] or [undefined]. *)
Definition get (v : value) (k : string) : option value :=
  match v with
  | VUndefined | VNull => None
  | VObject fields => Some (default VUndefined (fields !! k))
  | VBoolean _ | VNumber _ | VString _ | VArray _ => Some VUndefined
  end.

(** [v || d] *)
Definition or_else (v d : value) : value := if ToBoolean v then v else d.

(** A promise that has settled. *)
Inductive Outcome (A : Type) : Type :=
| Resolved (a : A)
| Rejected.
Arguments Resolved {A} a.
Arguments Rejected {A}.

End Js.

(** ** The data model of [types.ts] *)

Record Annotation : Type := mkAnnotation {
  type : string;
  start : option (list R);
  end_ : option (list R);
  center : option (list R);
  radius : option R;
  box_2d : option (list R);
  label : string
}.

(** The object an [Annotation] is at run time: absent optional fields
    are absent properties. *)
Definition numbers (l : list R) : Js.value := Js.VArray (map Js.VNumber l).

Definition put_opt (k : string) (v : option Js.value)
    (fields : gmap string Js.value) : gmap string Js.value :=
  match v with
  | Some x => <[ k := x ]> fields
  | None => fields
  end.

Definition Annotation_value (a : Annotation) : Js.value :=
  Js.VObject
    (put_opt "start" (numbers <$> start a)
    (put_opt "end" (numbers <$> end_ a)
    (put_opt "center" (numbers <$> center a)
    (put_opt "radius" (Js.VNumber <$> radius a)
    (put_opt "box_2d" (numbers <$> box_2d a)
    (<[ "type" := Js.VString (type a) ]>
    (<[ "label" := Js.VString (label a) ]> ∅))))))).

(** ** [AnnotationCanvas.tsx] *)

Module AnnotationCanvas.
Import Canvas2D.

(** What can stand where the prop [annotations] is read: a value that
    is not an array, or an array of annotations. *)
Inductive NonArray : Type :=
| NUndefined
| NNull
| NBoolean (b : bool)
| NNumber (n : R)
| NString (s : string)
| NObject (fields : gmap string Js.value).

Inductive AnnotationsProp : Type :=
| NotArray (v : NonArray)
| Annotations (l : list Annotation).

Definition runtime (p : AnnotationsProp) : Js.value :=
  match p with
  | NotArray NUndefined => Js.VUndefined
  | NotArray NNull => Js.VNull
  | NotArray (NBoolean b) => Js.VBoolean b
  | NotArray (NNumber n) => Js.VNumber n
  | NotArray (NString s) => Js.VString s
  | NotArray (NObject fields) => Js.VObject fields
  | Annotations l => Js.VArray (map Annotation_value l)
  end.

Definition elements (p : AnnotationsProp) : list Annotation :=
  match p with
  | NotArray _ => []
  | Annotations l => l
  end.

(** [!annotations || !Array.isArray(annotations)] *)
Definition not_a_list (annotations : Js.value) : bool :=
  negb (Js.ToBoolean annotations) || negb (Js.Array_isArray annotations).

(** [Math.atan2(y, x)], the angle of the vector [(x, y)] in (-PI, PI]. *)
Definition Math_atan2 (y x : R) : R :=
  if Rlt_dec 0 x then atan (y / x)
  else if Rlt_dec x 0 then
    (if Rle_dec 0 y then atan (y / x) + PI else atan (y / x) - PI)
  else if Rlt_dec 0 y then PI / 2
  else if Rlt_dec y 0 then - (PI / 2)
  else 0.

(** [canvasRef.current] and what [getContext('2d')] gives. *)
Inductive CanvasRef : Type :=
| NoCanvas
| NoContext
| Context (c : Ctx).

Section Component.
(** [textWidth fnt t]: the [width] of [measureText(t)] under font [fnt]. *)
Variable textWidth : string -> string -> R.

(** Helper to draw text with background. *)
Definition drawLabel (text : string) (x y : R) (color : string) : Draw unit :=
  let padding := 6 in
  textWidth_ <- measureText textWidth text ;;
  set_fillStyle "rgba(0,0,0,0.8)" ;;
  fillRect (x - padding) (y - 14 - padding) (textWidth_ + padding * 2) 24 ;;
  set_fillStyle color ;;
  fillText text x y.

Definition drawArrow (x1 y1 x2 y2 : R) : Draw unit :=
  let headLength := 15 in
  let angle := Math_atan2 (y2 - y1) (x2 - x1) in
  beginPath ;;
  moveTo x1 y1 ;;
  lineTo x2 y2 ;;
  stroke ;;
  beginPath ;;
  moveTo x2 y2 ;;
  lineTo (x2 - headLength * cos (angle - PI / 6)) (y2 - headLength * sin (angle - PI / 6)) ;;
  lineTo (x2 - headLength * cos (angle + PI / 6)) (y2 - headLength * sin (angle + PI / 6)) ;;
  lineTo x2 y2 ;;
  fill.

(** Color logic based on type. *)
Definition colorOf (t : string) : string :=
  let color := "#3b82f6" in
  let color := if String.eqb t "circle" then "#ef4444" else color in
  let color := if String.eqb t "arrow" then "#eab308" else color in
  let color := if String.eqb t "box" then "#22c55e" else color in
  let color := if String.eqb t "highlight" then "#f97316" else color in
  color.

(** The body of [annotations.forEach]. *)
Definition drawAnnotation (scaleX scaleY : R) (ann : Annotation) : Draw unit :=
  let color := colorOf (type ann) in
  set_strokeStyle color ;;
  set_fillStyle color ;;
  if String.eqb (type ann) "box" || String.eqb (type ann) "highlight" then
    match box_2d ann with
    | Some [ymin; xmin; ymax; xmax] =>
        let y := ymin * scaleY in
        let x := xmin * scaleX in
        let h := (ymax - ymin) * scaleY in
        let w := (xmax - xmin) * scaleX in
        (if String.eqb (type ann) "highlight" then
           set_fillStyle (color ++ "40")%string ;;
           fillRect x y w h ;;
           strokeRect x y w h
         else
           strokeRect x y w h) ;;
        drawLabel (label ann) x (y - 10) color
    | _ => ret tt
    end
  else if String.eqb (type ann) "circle" then
    match center ann with
    | Some [c0; c1] =>
        let cx := c0 * scaleX in
        let cy := c1 * scaleY in
        let r := (match radius ann with
                  | Some v => if Req_bool v 0 then 50 else v
                  | None => 50
                  end) * scaleX in
        beginPath ;;
        arc cx cy r 0 (2 * PI) ;;
        stroke ;;
        drawLabel (label ann) (cx - 20) (cy - r - 10) color
    | _ => ret tt
    end
  else if String.eqb (type ann) "arrow" then
    match start ann, end_ ann with
    | Some [s0; s1], Some [e0; e1] =>
        let x1 := s0 * scaleX in
        let y1 := s1 * scaleY in
        let x2 := e0 * scaleX in
        let y2 := e1 * scaleY in
        drawArrow x1 y1 x2 y2 ;;
        drawLabel (label ann) x1 (y1 - 20) color
    | _, _ => ret tt
    end
  else ret tt.

(** The effect once the context is in hand: lines 19 to 91. *)
Definition renderPass (width height : R) (annotations : AnnotationsProp) : Draw unit :=
  clearRect 0 0 width height ;;
  let scaleX := width / 1000 in
  let scaleY := height / 1000 in
  set_lineWidth 3 ;;
  set_shadowColor "rgba(0,0,0,0.8)" ;;
  set_shadowBlur 4 ;;
  set_font "bold 14px Inter, sans-serif" ;;
  if not_a_list (runtime annotations) then ret tt
  else forEach (elements annotations) (drawAnnotation scaleX scaleY).

(** The effect, run on every change of [annotations], [width], [height]:
    the canvas after, how it ended, the calls it made. *)
Definition effect (width height : R) (annotations : AnnotationsProp)
    (canvas : CanvasRef) : CanvasRef * Completion unit * list Call :=
  match canvas with
  | NoCanvas => (NoCanvas, Normal tt, [])
  | NoContext => (NoContext, Normal tt, [])
  | Context c =>
      (Context (exec (renderPass width height annotations) c),
       outcome (renderPass width height annotations) c,
       calls (renderPass width height annotations) c)
  end.

End Component.

(** The coordinate mapping as the specification states it:
    toPixel(normalizedValue, axisExtentPixels) = normalizedValue *
    (axisExtentPixels / 1000), read over the reals.  The source has no
    function of this name: [renderPass] computes [scaleX] and [scaleY]
    and [drawAnnotation] multiplies by them.  [Binary64.toPixel] is the
    same expression in the arithmetic of the program. *)
Definition toPixel (normalizedValue axisExtentPixels : R) : R :=
  normalizedValue * (axisExtentPixels / 1000).

End AnnotationCanvas.

(** ** The coordinate mapping in binary64 *)

Module Binary64.
Import PrimFloat.

(** [width / 1000] and [height / 1000], lines 23 and 24: a JavaScript
    number is a binary64 number and the division rounds to nearest. *)
Definition scale (axisExtentPixels : float) : float := (axisExtentPixels / 1000)%float.

(** [ann.box_2d[1] * scaleX] and the like, lines 50 to 53, 69 to 71 and
    82 to 85: the product rounds again. *)
Definition toPixel (normalizedValue axisExtentPixels : float) : float :=
  (normalizedValue * scale axisExtentPixels)%float.

(** The number an integer is; exact below 2^53. *)
Fixpoint ofPositive (p : positive) : float :=
  match p with
  | xH => 1%float
  | xO q => (2 * ofPositive q)%float
  | xI q => (2 * ofPositive q + 1)%float
  end.

Definition ofZ (z : Z) : float :=
  match z with
  | Z0 => 0%float
  | Zpos p => ofPositive p
  | Zneg p => (- ofPositive p)%float
  end.

(** [x === y], or [x] is the binary64 number next above or next below
    [y]. *)
Definition near (x y : float) : bool :=
  eqb x y || eqb x (next_up y) || eqb x (next_down y).

(** The integers [start], [start + 1], ..., [n] of them. *)
Fixpoint range (n : nat) (start : Z) : list Z :=
  match n with
  | O => []
  | S k => start :: range k (start + 1)%Z
  end.

(** 0 is sent to 0, and 1000 to the extent or next to it. *)
Definition endsOk (extent : Z) : bool :=
  eqb (toPixel (ofZ 0) (ofZ extent)) (ofZ 0)
  && near (toPixel (ofZ 1000) (ofZ extent)) (ofZ extent).

(** 1000 is sent to the extent. *)
Definition endExact (extent : Z) : bool :=
  eqb (toPixel (ofZ 1000) (ofZ extent)) (ofZ extent).

(** [c * (E / 1000)] against [c * E / 1000], where the product is
    exact and the quotient is rounded once. *)
Definition proportionalOk (extent c : Z) : bool :=
  near (toPixel (ofZ c) (ofZ extent)) (ofZ (c * extent) / 1000)%float.

(** The number next below 1001, printed 1000.9999999999999. *)
Definition below1001 : float := next_down 1001%float.

End Binary64.

(** ** The Gemini service: the tail of [analyzeImage] *)

Module GeminiService.
Import Js.

(** The object [analyzeImage] resolves with.  [as DiagnosisResponse] is
    not checked at run time: a field holds whatever value the expression
    of the source gives. *)
Record DiagnosisResponse : Type := mkDiagnosisResponse {
  object_detected : value;
  issue_detected : value;
  confidence : value;
  safety_warnings : value;
  tools_required : value;
  household_tool_alternatives : value;
  steps : value;
  annotations : value;
  camera_guidance : value;
  cause_explanation : value;
  prevention_tips : value
}.

(** [Array.isArray(v) ? v : []] *)
Definition array_or_empty (v : value) : value :=
  if Array_isArray v then v else VArray [].

(** Robust sanitization to prevent "undefined" errors in UI: the object
    literal of lines 118 to 130.  [None] is the TypeError of the first
    property read when [parsed] is [null]. *)
Definition sanitize (parsed : value) : option DiagnosisResponse :=
  object_detected ← get parsed "object_detected";
  issue_detected ← get parsed "issue_detected";
  confidence ← get parsed "confidence";
  safety_warnings ← get parsed "safety_warnings";
  tools_required ← get parsed "tools_required";
  household_tool_alternatives ← get parsed "household_tool_alternatives";
  steps ← get parsed "steps";
  annotations ← get parsed "annotations";
  camera_guidance ← get parsed "camera_guidance";
  cause_explanation ← get parsed "cause_explanation";
  prevention_tips ← get parsed "prevention_tips";
  Some (mkDiagnosisResponse
          (or_else object_detected (VString "Unknown Object"))
          (or_else issue_detected (VString "Analysis Pending"))
          (or_else confidence (VString "Unknown"))
          (array_or_empty safety_warnings)
          (array_or_empty tools_required)
          (array_or_empty household_tool_alternatives)
          (array_or_empty steps)
          (array_or_empty annotations)
          (or_else camera_guidance (VString "None"))
          (or_else cause_explanation (VString "No explanation provided."))
          (or_else prevention_tips (VString "No specific tips."))).

Section Service.
(** [JSON.parse]; [None] is its SyntaxError. *)
Variable JSON_parse : string -> option value.

(** [analyzeImage] from the point where [generateContent] has settled:
    [response] is [Rejected] when the request failed, and otherwise holds
    [response.text], a string or [undefined].  Every error is caught,
    logged and thrown again, so the promise rejects. *)
Definition analyzeImage (response : Outcome (option string)) : Outcome DiagnosisResponse :=
  match response with
  | Rejected => Rejected
  | Resolved None => Rejected
  | Resolved (Some text) =>
      if negb (String.eqb text "") then
        match JSON_parse text with
        | None => Rejected
        | Some parsed =>
            match sanitize parsed with
            | None => Rejected
            | Some result => Resolved result
            end
        end
      else Rejected
  end.

End Service.

(** The fields the interface types as [string], with their defaults,
    and the fields it types as arrays. *)
Definition stringFields : list (string * (DiagnosisResponse -> value) * string) :=
  [("object_detected", object_detected, "Unknown Object");
   ("issue_detected", issue_detected, "Analysis Pending");
   ("confidence", confidence, "Unknown");
   ("camera_guidance", camera_guidance, "None");
   ("cause_explanation", cause_explanation, "No explanation provided.");
   ("prevention_tips", prevention_tips, "No specific tips.")].

Definition arrayFields : list (string * (DiagnosisResponse -> value)) :=
  [("safety_warnings", safety_warnings);
   ("tools_required", tools_required);
   ("household_tool_alternatives", household_tool_alternatives);
   ("steps", steps);
   ("annotations", annotations)].

(** [parsed.k] where [parsed] is not [null]. *)
Definition prop (parsed : value) (k : string) : value :=
  default VUndefined (get parsed k).

Definition nonempty_string (v : value) : bool :=
  match v with
  | VString s => negb (String.eqb s "")
  | _ => false
  end.

End GeminiService.

(** ** The Gemini service: the head of [analyzeImage] *)

Module GeminiRequest.
Import Js.

(** [\w]: a letter of the Latin alphabet, a digit or the underscore. *)
Definition wordChar (a : Ascii.ascii) : bool :=
  let n := Ascii.nat_of_ascii a in
  ((65 <=? n) && (n <=? 90) || (97 <=? n) && (n <=? 122)
   || (48 <=? n) && (n <=? 57) || (n =? 95))%nat.

Fixpoint allWord (s : string) : bool :=
  match s with
  | EmptyString => true
  | String a s' => wordChar a && allWord s'
  end.

(** [s] without the prefix [p], when [s] starts with [p]. *)
Fixpoint after (p s : string) : option string :=
  match p, s with
  | EmptyString, _ => Some s
  | String a p', String b s' => if Ascii.eqb a b then after p' s' else None
  | String _ _, EmptyString => None
  end.

(** The longest run of word characters at the head of [s], and the
    rest of [s]: what a greedy [\w*] takes.  The character after the run
    is not a word character, so a match of [\w+;] has to take the whole
    run. *)
Fixpoint wordRun (s : string) : string * string :=
  match s with
  | EmptyString => (EmptyString, EmptyString)
  | String a s' =>
      if wordChar a then (String a (fst (wordRun s')), snd (wordRun s'))
      else (EmptyString, s)
  end.

(** [base64Image.replace(/^data:image\/\w+;base64,/, "")], line 34. *)
Definition base64Data (base64Image : string) : string :=
  match after "data:image/" base64Image with
  | Some rest =>
      match wordRun rest with
      | (EmptyString, _) => base64Image
      | (String _ _, rest') =>
          match after ";base64," rest' with
          | Some data => data
          | None => base64Image
          end
      end
  | None => base64Image
  end.

(** The argument of [generateContent]. *)
Record InlineData : Type := mkInlineData { mimeType : string; data : string }.

Inductive Part : Type :=
| Part_inlineData (inlineData : InlineData)
| Part_text (text : string).

Record Contents : Type := mkContents { parts : list Part }.

Record Request (Config : Type) : Type := mkRequest {
  model : string;
  contents : Contents;
  config : Config
}.
Arguments mkRequest {Config} model contents config.
Arguments model {Config} r.
Arguments contents {Config} r.
Arguments config {Config} r.

Section Service.
(** The [config] of the request, lines 52 to 111: the system
    instruction, the thinking budget and the response schema.  It does
    not depend on the image. *)
Variable Config : Type.
Variable theConfig : Config.
(** How [generateContent] settles on a request: [Rejected], or
    [response.text]. *)
Variable generateContent : Request Config -> Outcome (option string).
(** [JSON.parse]; [None] is its SyntaxError. *)
Variable JSON_parse : string -> option value.

Definition request (base64Image : string) : Request Config :=
  mkRequest "gemini-2.5-flash"
    (mkContents
       [Part_inlineData (mkInlineData "image/jpeg" (base64Data base64Image));
        Part_text "Diagnose this object. Think step-by-step about potential mechanical, electrical, or structural failures. Provide a repair guide."])
    theConfig.

(** [analyzeImage] as a whole: the request, then the tail. *)
Definition analyzeImage (base64Image : string) : Outcome GeminiService.DiagnosisResponse :=
  GeminiService.analyzeImage JSON_parse (generateContent (request base64Image)).

End Service.

(** A data URL of a base64 image of subtype [w]. *)
Definition dataUrl (w payload : string) : string :=
  ("data:image/" ++ w ++ ";base64," ++ payload)%string.

(** The object a [DiagnosisResponse] is at run time. *)
Definition DiagnosisResponse_value (r : GeminiService.DiagnosisResponse) : value :=
  VObject
    (<[ "object_detected" := GeminiService.object_detected r ]>
    (<[ "issue_detected" := GeminiService.issue_detected r ]>
    (<[ "confidence" := GeminiService.confidence r ]>
    (<[ "safety_warnings" := GeminiService.safety_warnings r ]>
    (<[ "tools_required" := GeminiService.tools_required r ]>
    (<[ "household_tool_alternatives" := GeminiService.household_tool_alternatives r ]>
    (<[ "steps" := GeminiService.steps r ]>
    (<[ "annotations" := GeminiService.annotations r ]>
    (<[ "camera_guidance" := GeminiService.camera_guidance r ]>
    (<[ "cause_explanation" := GeminiService.cause_explanation r ]>
    (<[ "prevention_tips" := GeminiService.prevention_tips r ]> ∅))))))))))).

(** The eleven property names [analyzeImage] reads. *)
Definition fieldNames : list string :=
  map (fun f => fst (fst f)) GeminiService.stringFields
  ++ map fst GeminiService.arrayFields.

(** The result in which every field is its default. *)
Definition defaults : GeminiService.DiagnosisResponse :=
  GeminiService.mkDiagnosisResponse
    (VString "Unknown Object") (VString "Analysis Pending") (VString "Unknown")
    (VArray []) (VArray []) (VArray []) (VArray []) (VArray [])
    (VString "None") (VString "No explanation provided.")
    (VString "No specific tips.").

Definition is_object (v : value) : bool :=
  match v with
  | VObject _ => true
  | _ => false
  end.

(** [null] or [undefined]: the values a property read throws on. *)
Definition nullish (v : value) : bool :=
  match v with
  | VUndefined | VNull => true
  | _ => false
  end.

End GeminiRequest.

(** ** [App.tsx] *)

Module App.
Import Js.

(** [AnalysisState] of [types.ts].  The status 'error' is [Error],
    since the record has a field [error]. *)
Inductive Status : Type :=
| Idle
| Capturing
| Analyzing
| Complete
| Error.

Record AnalysisState : Type := mkAnalysisState {
  status : Status;
  imageSrc : option string;
  result : option GeminiService.DiagnosisResponse;
  error : option string
}.

Record Dims : Type := mkDims { width : R; height : R }.

(** The initial state, which [handleReset] sets again. *)
Definition initialState : AnalysisState := mkAnalysisState Idle None None None.

Definition handleReset (prev : AnalysisState) : AnalysisState := initialState.

(** The three updaters of [handleCapture]: before the call of
    [analyzeImage], after it resolved, after it rejected. *)
Definition analyzing (imageData : string) (prev : AnalysisState) : AnalysisState :=
  mkAnalysisState Analyzing (Some imageData) (result prev) None.

Definition complete (diagnosis : GeminiService.DiagnosisResponse)
    (prev : AnalysisState) : AnalysisState :=
  mkAnalysisState Complete (imageSrc prev) (Some diagnosis) (error prev).

Definition failed (prev : AnalysisState) : AnalysisState :=
  mkAnalysisState Error (imageSrc prev) (result prev)
    (Some "Failed to analyze the image. Please try again or check your internet connection.").

(** [handleCapture] from the point where [analyzeImage] has settled. *)
Definition settle (diagnosis : Outcome GeminiService.DiagnosisResponse)
    (prev : AnalysisState) : AnalysisState :=
  match diagnosis with
  | Resolved d => complete d prev
  | Rejected => failed prev
  end.

(** What the component renders: which of the conditional blocks of the
    JSX are there, and with what props.  [annotationCanvas] holds
    [width], [height] and [annotations]; [errorPanel] holds the message
    shown. *)
Record Screen : Type := mkScreen {
  badge : bool;
  cameraCapture : bool;
  image : option string;
  annotationCanvas : option (R * R * value);
  spinner : bool;
  errorPanel : option (option string);
  closeButton : bool;
  resultsPanel : option GeminiService.DiagnosisResponse
}.

(** [state.imageSrc &&]: a string that is not empty. *)
Definition shown (imageSrc : option string) : option string :=
  match imageSrc with
  | Some src => if String.eqb src "" then None else Some src
  | None => None
  end.

(** The JSX of lines 54 to 154. *)
Definition render (state : AnalysisState) (viewportDims : Dims) : Screen :=
  let idle := match status state with Idle => true | _ => false end in
  let isAnalyzing := match status state with Analyzing => true | _ => false end in
  let isComplete := match status state with Complete => true | _ => false end in
  let isError := match status state with Error => true | _ => false end in
  let imageBlock :=
    if isAnalyzing || isComplete || isError then shown (imageSrc state) else None in
  let inBlock := match imageBlock with Some _ => true | None => false end in
  mkScreen
    idle
    idle
    imageBlock
    (if inBlock && isComplete then
       match result state with
       | Some r => Some (width viewportDims, height viewportDims,
                         GeminiService.annotations r)
       | None => None
       end
     else None)
    (inBlock && isAnalyzing)
    (if inBlock && isError then Some (error state) else None)
    (inBlock && negb isAnalyzing)
    (if isComplete then result state else None).

(** The component while it runs: its two pieces of state, and the
    number of calls of [analyzeImage] that have not settled. *)
Record Running : Type := mkRunning {
  state : AnalysisState;
  viewportDims : Dims;
  inFlight : nat
}.

(** What can happen to it: [CameraCapture] calls [onCapture]; the
    request of a call in flight settles; a control bound to
    [handleReset] is clicked; the window is resized. *)
Inductive Event : Type :=
| Capture (imageData : string)
| Settle (response : Outcome (option string))
| ResetClick
| Resize (w h : R).

(** The controls bound to [handleReset]: Try Again of the error panel,
    the close button, and the reset button of [ResultsPanel]. *)
Definition resetOffered (s : Screen) : bool :=
  match errorPanel s with Some _ => true | None => false end
  || closeButton s
  || match resultsPanel s with Some _ => true | None => false end.

Section Component.
(** [JSON.parse]; [None] is its SyntaxError. *)
Variable JSON_parse : string -> option value.

(** One event; [None] when the screen does not offer it. *)
Definition step (e : Event) (r : Running) : option Running :=
  let screen := render (state r) (viewportDims r) in
  match e with
  | Capture imageData =>
      if cameraCapture screen then
        Some (mkRunning (analyzing imageData (state r)) (viewportDims r) (S (inFlight r)))
      else None
  | Settle response =>
      match inFlight r with
      | O => None
      | S n =>
          Some (mkRunning
                  (settle (GeminiService.analyzeImage JSON_parse response) (state r))
                  (viewportDims r) n)
      end
  | ResetClick =>
      if resetOffered screen then
        Some (mkRunning (handleReset (state r)) (viewportDims r) (inFlight r))
      else None
  | Resize w h => Some (mkRunning (state r) (mkDims w h) (inFlight r))
  end.

Fixpoint run (events : list Event) (r : Running) : option Running :=
  match events with
  | [] => Some r
  | e :: events' =>
      match step e r with
      | Some r' => run events' r'
      | None => None
      end
  end.

End Component.

(** The component as mounted in a window of the given inner size. *)
Definition mounted (innerWidth innerHeight : R) : Running :=
  mkRunning initialState (mkDims innerWidth innerHeight) 0.

(** *** Definitions used by the statements *)

(** A result as [analyzeImage] builds it. *)
Definition sanitised (d : GeminiService.DiagnosisResponse) : Prop :=
  exists parsed, GeminiService.sanitize parsed = Some d.

(** The four kinds of state the component is ever in. *)
Definition consistent (r : Running) : Prop :=
  match status (state r) with
  | Idle => state r = initialState /\ inFlight r = 0%nat
  | Capturing => False
  | Analyzing =>
      (exists src, imageSrc (state r) = Some src)
      /\ result (state r) = None /\ error (state r) = None /\ inFlight r = 1%nat
  | Complete =>
      (exists src, imageSrc (state r) = Some src)
      /\ (exists d, result (state r) = Some d /\ sanitised d)
      /\ error (state r) = None /\ inFlight r = 0%nat
  | Error =>
      (exists src, imageSrc (state r) = Some src)
      /\ result (state r) = None
      /\ error (state r)
         = Some "Failed to analyze the image. Please try again or check your internet connection."
      /\ inFlight r = 0%nat
  end.

(** The image of the last capture, none after a reset; the size of the
    last resize. *)
Definition imageAfter (events : list Event) : option string :=
  fold_left (fun acc e =>
               match e with
               | Capture imageData => Some imageData
               | ResetClick => None
               | _ => acc
               end) events None.

Definition dimsAfter (events : list Event) (d : Dims) : Dims :=
  fold_left (fun acc e =>
               match e with
               | Resize w h => mkDims w h
               | _ => acc
               end) events d.

Definition capturesNonEmpty (events : list Event) : Prop :=
  Forall (fun e => match e with
                   | Capture imageData => imageData <> ""
                   | _ => True
                   end) events.

(** Nothing on the screen but the header. *)
Definition blank : Screen := mkScreen false false None None false None false None.

End App.

(** ** [ResultsPanel.tsx]: the tests on the result *)

Module ResultsPanel.
Import Js.

(** [result.confidence || "N/A"], line 59. *)
Definition confidenceBadge (result : GeminiService.DiagnosisResponse) : value :=
  or_else (GeminiService.confidence result) (VString "N/A").

Section Host.
(** [String.prototype.toLowerCase] *)
Variable toLowerCase : string -> string.

(** Whether the camera guidance alert is rendered, line 101, for
    [camera_guidance] a string, as the interface types it.
    [String.length] counts the characters of the string of the model,
    which is the [length] of the source for text in ASCII. *)
Definition cameraGuidanceAlert (camera_guidance : string) : bool :=
  negb (String.eqb camera_guidance "")
  && (5 <? String.length camera_guidance)%nat
  && negb (String.eqb (toLowerCase camera_guidance) "none").

End Host.

End ResultsPanel.

(** ** Concrete hosts used by examples *)

Module Examples.
Import Canvas2D.

(** A font in which every character is 8 wide. *)
Definition fixedPitch (fnt t : string) : R := 8 * INR (String.length t).

(** A context as a fresh canvas of the given size provides it. *)
Definition fresh (w h : R) : Ctx :=
  mkCtx "#000000" "#000000" 1 "rgba(0, 0, 0, 0)" 0 "10px sans-serif" [] w h [].

Definition box (lbl : string) (b : list R) : Annotation :=
  mkAnnotation "box" None None None None (Some b) lbl.
Definition highlight (lbl : string) (b : list R) : Annotation :=
  mkAnnotation "highlight" None None None None (Some b) lbl.
Definition circle (lbl : string) (c : list R) (r : option R) : Annotation :=
  mkAnnotation "circle" None None (Some c) r None lbl.
Definition arrow (lbl : string) (s e : list R) : Annotation :=
  mkAnnotation "arrow" (Some s) (Some e) None None None lbl.

(** The double quote, and a response text with a number where the
    schema asks for a string: {"object_detected": 42}. *)
Definition quote : string :=
  String (Ascii.Ascii false true false false false true false false) "".

Definition text42 : string :=
  "{" ++ quote ++ "object_detected" ++ quote ++ ": 42}".

Definition parsed42 : Js.value :=
  Js.VObject {[ "object_detected" := Js.VNumber 42 ]}.

(** A parser that reads [text42] as [JSON.parse] does, and nothing else. *)
Definition parse42 (text : string) : option Js.value :=
  if String.eqb text text42 then Some parsed42 else None.

(** What [analyzeImage] resolves with for [text42]. *)
Definition result42 : GeminiService.DiagnosisResponse :=
  GeminiService.mkDiagnosisResponse
    (Js.VNumber 42) (Js.VString "Analysis Pending") (Js.VString "Unknown")
    (Js.VArray []) (Js.VArray []) (Js.VArray []) (Js.VArray []) (Js.VArray [])
    (Js.VString "None") (Js.VString "No explanation provided.")
    (Js.VString "No specific tips.").

(** A parser that reads the text of an empty object, and nothing else. *)
Definition parseEmptyObject (text : string) : option Js.value :=
  if String.eqb text "{}" then Some (Js.VObject ∅) else None.

(** A circle with a negative radius. *)
Definition badCircle : Annotation := circle "x" [500; 500] (Some (-5)).

End Examples.

(** ** Properties of the render pass *)

Module Properties.
Import Canvas2D AnnotationCanvas.

(** *** Definitions used by the statements *)

(** The font and the shadow the pass sets. *)
Definition passFont : string := "bold 14px Inter, sans-serif".
Definition passShadow : Shadow := mkShadow "rgba(0,0,0,0.8)" 4.

(** The attributes every pass sets before it draws, and the bitmap. *)
Definition same_setup (c d : Ctx) : Prop :=
  lineWidth c = lineWidth d /\ shadowColor c = shadowColor d /\
  shadowBlur c = shadowBlur d /\ font c = font d /\
  bitmapWidth c = bitmapWidth d /\ bitmapHeight c = bitmapHeight d.

(** After two runs, from [c] to [c'] and from [d] to [d'], the field
    [f] is equal in both or was touched in neither. *)
Definition settled {A : Type} (f : Ctx -> A) (c d c' d' : Ctx) : Prop :=
  f c' = f d' \/ (f c' = f c /\ f d' = f d).

(** Two runs of [m] from contexts with the same setup keep the setup,
    end the same way, issue the same calls, add the same paint to the
    surface, and settle the styles and the path. *)
Definition alike (m : Draw unit) : Prop :=
  forall c d : Ctx, same_setup c d ->
    same_setup (exec m c) c /\
    outcome m c = outcome m d /\
    calls m c = calls m d /\
    (exists delta, surface (exec m c) = surface c ++ delta /\
                   surface (exec m d) = surface d ++ delta) /\
    settled strokeStyle c d (exec m c) (exec m d) /\
    settled fillStyle c d (exec m c) (exec m d) /\
    settled path c d (exec m c) (exec m d).

(** The pass is its fixed opening followed by the loop. *)
Definition opened (width height : R) (c : Ctx) : Ctx :=
  mkCtx (strokeStyle c) (fillStyle c) 3 "rgba(0,0,0,0.8)" 4 passFont (path c)
        (bitmapWidth c) (bitmapHeight c)
        (if covers_bitmap 0 0 width height c then []
         else surface c ++ [Erased 0 0 width height]).

Definition loop (textWidth : string -> string -> R) (width height : R)
    (annotations : AnnotationsProp) : Draw unit :=
  if not_a_list (runtime annotations) then ret tt
  else forEach (elements annotations)
         (drawAnnotation textWidth (width / 1000) (height / 1000)).

(** A malformed annotation: a type outside the four, or the
    coordinate field of its variant absent or of the wrong length. *)
Definition unknown_type (ann : Annotation) : Prop :=
  type ann <> "arrow" /\ type ann <> "circle" /\
  type ann <> "box" /\ type ann <> "highlight".

Definition wrong_length (n : nat) (field : option (list R)) : Prop :=
  match field with
  | None => True
  | Some l => length l <> n
  end.

Definition malformed (ann : Annotation) : Prop :=
  unknown_type ann
  \/ ((type ann = "box" \/ type ann = "highlight") /\ wrong_length 4 (box_2d ann))
  \/ (type ann = "circle" /\ wrong_length 2 (center ann))
  \/ (type ann = "arrow" /\
      (wrong_length 2 (start ann) \/ wrong_length 2 (end_ ann))).

(** The context after the two style assignments that open the body. *)
Definition styled (color : string) (c : Ctx) : Ctx :=
  mkCtx color color (lineWidth c) (shadowColor c) (shadowBlur c) (font c)
        (path c) (bitmapWidth c) (bitmapHeight c) (surface c).

(** The bitmap of the canvas has the size the component gives the
    element: [width={width} height={height}]. *)
Definition fits (width height : R) (canvas : CanvasRef) : Prop :=
  match canvas with
  | Context c => bitmapWidth c = width /\ bitmapHeight c = height
  | NoCanvas | NoContext => True
  end.

(** The calls and the paint of a label at the anchor [(ax, ay)]. *)
Definition labelCalls (textWidth : string -> string -> R) (fnt text : string)
    (ax ay : R) : list Call :=
  [measureText_ text;
   fillRect_ (ax - 6) (ay - 20) (textWidth fnt text + 12) 24;
   fillText_ text ax ay].

Definition labelPaint (textWidth : string -> string -> R) (fnt : string)
    (sh : Shadow) (text : string) (ax ay : R) (color : string) : list Painted :=
  [FilledRect (ax - 6) (ay - 20) (textWidth fnt text + 12) 24 "rgba(0,0,0,0.8)" sh;
   FilledText text ax ay color fnt sh].

(** [ann.radius || 50] *)
Definition radiusOr50 (radius : option R) : R :=
  match radius with
  | Some v => if Req_bool v 0 then 50 else v
  | None => 50
  end.

(** The annotations on which the body throws: a circle with a center
    of length 2 whose radius in pixels is negative. *)
Definition raises (scaleX : R) (ann : Annotation) : Prop :=
  type ann = "circle"
  /\ exists c0 c1, center ann = Some [c0; c1]
                   /\ radiusOr50 (radius ann) * scaleX < 0.

(** The two wing points of the head of an arrow that ends in
    [(x2, y2)] with direction angle [angle]. *)
Definition wing (x2 y2 angle side : R) : R * R :=
  (x2 - 15 * cos (angle + side * (PI / 6)), y2 - 15 * sin (angle + side * (PI / 6))).

(** The wing on side [side] of the arrow from [(s0, s1)] to [(e0, e1)],
    in normalized coordinates, on a surface of [width] by [height]. *)
Definition arrowWing (width height s0 s1 e0 e1 side : R) : R * R :=
  wing (toPixel e0 width) (toPixel e1 height)
       (Math_atan2 (toPixel e1 height - toPixel s1 height)
                   (toPixel e0 width - toPixel s0 width))
       side.

(** The four colours a shape is drawn in. *)
Definition palette : list string := ["#ef4444"; "#eab308"; "#22c55e"; "#f97316"].

(** Paint as a pass leaves it: under the shadow, the line width and the
    font of the pass, in the colour of a drawn type, the translucent
    orange of a highlight or the dark plate of a label. *)
Definition in_style (p : Painted) : Prop :=
  match p with
  | FilledRect _ _ _ _ col sh =>
      sh = passShadow /\ (col = "rgba(0,0,0,0.8)" \/ col = "#f9731640")
  | StrokedRect _ _ _ _ col lw sh =>
      sh = passShadow /\ lw = 3 /\ (col = "#22c55e" \/ col = "#f97316")
  | StrokedPath _ col lw sh =>
      sh = passShadow /\ lw = 3 /\ (col = "#ef4444" \/ col = "#eab308")
  | FilledPath _ col sh => sh = passShadow /\ col = "#eab308"
  | FilledText _ _ _ col fnt sh => sh = passShadow /\ fnt = passFont /\ In col palette
  | Erased _ _ _ _ => False
  end.

(** The annotation with the fields its type does not use taken away. *)
Definition ownFields (ann : Annotation) : Annotation :=
  if String.eqb (type ann) "box" || String.eqb (type ann) "highlight" then
    mkAnnotation (type ann) None None None None (box_2d ann) (label ann)
  else if String.eqb (type ann) "circle" then
    mkAnnotation (type ann) None None (center ann) (radius ann) None (label ann)
  else if String.eqb (type ann) "arrow" then
    mkAnnotation (type ann) (start ann) (end_ ann) None None None (label ann)
  else mkAnnotation (type ann) None None None None None (label ann).

(** The calls one annotation adds to a pass, by variant, in a context
    with font [fnt]; none when it is malformed. *)
Definition annotationCalls (textWidth : string -> string -> R) (fnt : string)
    (sx sy : R) (ann : Annotation) : list Call :=
  if String.eqb (type ann) "box" || String.eqb (type ann) "highlight" then
    match box_2d ann with
    | Some [ymin; xmin; ymax; xmax] =>
        (if String.eqb (type ann) "highlight" then
           [fillRect_ (xmin * sx) (ymin * sy) ((xmax - xmin) * sx) ((ymax - ymin) * sy)]
         else [])
        ++ strokeRect_ (xmin * sx) (ymin * sy) ((xmax - xmin) * sx) ((ymax - ymin) * sy)
           :: labelCalls textWidth fnt (label ann) (xmin * sx) (ymin * sy - 10)
    | _ => []
    end
  else if String.eqb (type ann) "circle" then
    match center ann with
    | Some [c0; c1] =>
        beginPath_
        :: arc_ (c0 * sx) (c1 * sy) (radiusOr50 (radius ann) * sx) 0 (2 * PI)
        :: stroke_
        :: labelCalls textWidth fnt (label ann) (c0 * sx - 20)
             (c1 * sy - radiusOr50 (radius ann) * sx - 10)
    | _ => []
    end
  else if String.eqb (type ann) "arrow" then
    match start ann, end_ ann with
    | Some [s0; s1], Some [e0; e1] =>
        let angle := Math_atan2 (e1 * sy - s1 * sy) (e0 * sx - s0 * sx) in
        [beginPath_; moveTo_ (s0 * sx) (s1 * sy); lineTo_ (e0 * sx) (e1 * sy); stroke_;
         beginPath_; moveTo_ (e0 * sx) (e1 * sy);
         lineTo_ (e0 * sx - 15 * cos (angle - PI / 6)) (e1 * sy - 15 * sin (angle - PI / 6));
         lineTo_ (e0 * sx - 15 * cos (angle + PI / 6)) (e1 * sy - 15 * sin (angle + PI / 6));
         lineTo_ (e0 * sx) (e1 * sy); fill_]
        ++ labelCalls textWidth fnt (label ann) (s0 * sx) (s1 * sy - 20)
    | _, _ => []
    end
  else [].
(** *** Tactics *)

Ltac split_cases :=
  repeat (cbn;
    match goal with
    | |- context [String.eqb ?a ?b] => destruct (String.eqb a b) eqn:?
    | |- context [Req_bool ?a ?b] => destruct (Req_bool a b) eqn:?
    | |- context [Rlt_dec ?a ?b] => destruct (Rlt_dec a b)
    | |- context [match ?x with _ => _ end] => is_var x; destruct x
    end).

Ltac eqb_facts :=
  repeat match goal with
  | H : String.eqb _ _ = true |- _ => apply String.eqb_eq in H
  | H : String.eqb _ _ = false |- _ => apply String.eqb_neq in H
  end.

Ltac arith :=
  unfold passFont, passShadow, toPixel;
  try reflexivity; try lra; try (unfold Rdiv; ring).

Ltac same_lists :=
  repeat match goal with
  | |- _ :: _ = _ :: _ => f_equal
  | |- _ ++ _ = _ ++ _ => f_equal
  end;
  try reflexivity;
  try (f_equal; arith).

Ltac trace :=
  unfold labelCalls, labelPaint, outcome, calls, painted, exec,
         drawAnnotation, drawLabel, drawArrow, arc;
  cbn; rewrite <- ?app_assoc; cbn.

(** *** The monad, and what one annotation does to the context *)

Lemma outcome_bind {A B : Type} (m : Draw A) (f : A -> Draw B) (c : Ctx) :
  outcome (bind m f) c
  = match outcome m c with
    | Normal a => outcome (f a) (exec m c)
    | Throw e => Throw e
    end.
Proof. unfold outcome, exec, bind. destruct (fst (fst (m c))); reflexivity. Qed.

Lemma exec_bind {A B : Type} (m : Draw A) (f : A -> Draw B) (c : Ctx) :
  exec (bind m f) c
  = match outcome m c with
    | Normal a => exec (f a) (exec m c)
    | Throw _ => exec m c
    end.
Proof. unfold outcome, exec, bind. destruct (fst (fst (m c))); reflexivity. Qed.

Lemma calls_bind {A B : Type} (m : Draw A) (f : A -> Draw B) (c : Ctx) :
  calls (bind m f) c
  = match outcome m c with
    | Normal a => calls m c ++ calls (f a) (exec m c)
    | Throw _ => calls m c
    end.
Proof. unfold outcome, calls, exec, bind. destruct (fst (fst (m c))); reflexivity. Qed.

Lemma same_setup_refl (c : Ctx) : same_setup c c.
Proof. repeat split. Qed.

Lemma same_setup_trans (c d e : Ctx) : same_setup c d -> same_setup d e -> same_setup c e.
Proof. unfold same_setup. intuition congruence. Qed.

Lemma same_setup_sym (c d : Ctx) : same_setup c d -> same_setup d c.
Proof. unfold same_setup. intuition congruence. Qed.

Lemma drawAnnotation_alike (textWidth : string -> string -> R) (sx sy : R) (ann : Annotation) :
  alike (drawAnnotation textWidth sx sy ann).
Proof.
  intros [ss fs lw sc sb fnt p bw bh s] [ss' fs' lw' sc' sb' fnt' p' bw' bh' s'] H.
  unfold same_setup in H; simpl in H.
  destruct H as (-> & -> & -> & -> & -> & ->).
  destruct ann as [t st en ce ra bx lbl].
  unfold alike, settled, same_setup, drawAnnotation, drawLabel, drawArrow,
         colorOf, arc, outcome, calls, exec.
  split_cases; cbn;
    (split; [repeat split | split; [reflexivity | split; [reflexivity | split; [| auto]]]]);
    rewrite <- ?app_assoc;
    first [ eexists; split; reflexivity
          | exists []; rewrite !app_nil_r; split; reflexivity ].
Qed.

Lemma settled_trans {A : Type} (f : Ctx -> A) (c d c1 d1 c2 d2 : Ctx) :
  settled f c d c1 d1 -> settled f c1 d1 c2 d2 -> settled f c d c2 d2.
Proof. unfold settled. intuition congruence. Qed.

Lemma alike_ret : alike (ret tt).
Proof.
  intros c d H. unfold settled, outcome, exec, calls; cbn.
  split; [apply same_setup_refl |].
  split; [reflexivity |].
  split; [reflexivity |].
  split; [exists []; rewrite !app_nil_r; auto | auto].
Qed.

Lemma alike_bind (m k : Draw unit) :
  alike m -> alike k -> alike (bind m (fun _ => k)).
Proof.
  intros Hm Hk c d H.
  destruct (Hm c d H) as (Sc & Om & Cm & (dm & Pc & Pd) & Ss & Sf & Sp).
  destruct (Hm d d (same_setup_refl d)) as (Sd & _).
  rewrite !outcome_bind, !exec_bind, !calls_bind, <- Om.
  destruct (outcome m c) as [[] | e].
  - assert (H1 : same_setup (exec m c) (exec m d)).
    { eapply same_setup_trans; [exact Sc |].
      eapply same_setup_trans; [exact H |]. apply same_setup_sym, Sd. }
    destruct (Hk _ _ H1) as (Sc' & Ok & Ck & (dk & Pc' & Pd') & Ss' & Sf' & Sp').
    split; [eapply same_setup_trans; eassumption |].
    split; [exact Ok |].
    split; [congruence |].
    split.
    + exists (dm ++ dk). rewrite Pc', Pd', Pc, Pd, <- !app_assoc. auto.
    + repeat split; eapply settled_trans; eassumption.
  - split; [exact Sc |]. split; [reflexivity |]. split; [exact Cm |].
    split; [exists dm; auto | auto].
Qed.

Lemma forEach_alike {A : Type} (f : A -> Draw unit) (l : list A) :
  (forall a, alike (f a)) -> alike (forEach l f).
Proof.
  intros Hf. induction l as [| a l IH]; simpl.
  - apply alike_ret.
  - apply alike_bind; [apply Hf | exact IH].
Qed.

Lemma ctx_eq (c d : Ctx) :
  same_setup c d -> strokeStyle c = strokeStyle d -> fillStyle c = fillStyle d ->
  path c = path d -> surface c = surface d -> c = d.
Proof.
  destruct c, d. unfold same_setup. simpl.
  intros (-> & -> & -> & -> & -> & ->) -> -> -> ->. reflexivity.
Qed.

Lemma Req_bool_refl (x : R) : Req_bool x x = true.
Proof. unfold Req_bool. destruct (Req_dec_T x x); [reflexivity | contradiction]. Qed.

(** *** The pass: its opening, then the loop *)

Lemma renderPass_exec textWidth width height annotations c :
  exec (renderPass textWidth width height annotations) c
  = exec (loop textWidth width height annotations) (opened width height c).
Proof.
  unfold renderPass, loop, opened, exec. cbn.
  destruct (covers_bitmap 0 0 width height c); reflexivity.
Qed.

Lemma renderPass_outcome textWidth width height annotations c :
  outcome (renderPass textWidth width height annotations) c
  = outcome (loop textWidth width height annotations) (opened width height c).
Proof.
  unfold renderPass, loop, opened, outcome. cbn.
  destruct (covers_bitmap 0 0 width height c); reflexivity.
Qed.

Lemma renderPass_calls textWidth width height annotations c :
  calls (renderPass textWidth width height annotations) c
  = clearRect_ 0 0 width height
      :: calls (loop textWidth width height annotations) (opened width height c).
Proof.
  unfold renderPass, loop, opened, calls. cbn.
  destruct (covers_bitmap 0 0 width height c); reflexivity.
Qed.

Lemma loop_alike textWidth width height annotations :
  alike (loop textWidth width height annotations).
Proof.
  unfold loop. destruct (not_a_list (runtime annotations)).
  - apply alike_ret.
  - apply forEach_alike. intros a. apply drawAnnotation_alike.
Qed.

Lemma loop_Annotations textWidth width height l :
  loop textWidth width height (Annotations l)
  = forEach l (drawAnnotation textWidth (width / 1000) (height / 1000)).
Proof. reflexivity. Qed.

Lemma renderPass_single textWidth width height ann c :
  outcome (renderPass textWidth width height (Annotations [ann])) c
  = outcome (drawAnnotation textWidth (width / 1000) (height / 1000) ann)
            (opened width height c)
  /\ calls (renderPass textWidth width height (Annotations [ann])) c
     = clearRect_ 0 0 width height
       :: calls (drawAnnotation textWidth (width / 1000) (height / 1000) ann)
                (opened width height c)
  /\ painted (renderPass textWidth width height (Annotations [ann])) c
     = painted (drawAnnotation textWidth (width / 1000) (height / 1000) ann)
               (opened width height c).
Proof.
  unfold painted.
  rewrite renderPass_outcome, renderPass_calls, renderPass_exec, loop_Annotations.
  simpl forEach. rewrite outcome_bind, calls_bind, exec_bind.
  destruct (outcome (drawAnnotation textWidth (width / 1000) (height / 1000) ann)
              (opened width height c)) as [[] | e].
  - unfold outcome at 1, calls at 2, exec at 1. simpl. rewrite app_nil_r. auto.
  - auto.
Qed.

(** The defensive check is taken exactly when [annotations] is not an
    array; the pass then clears the surface, sets the shared styles and
    draws nothing. *)
Lemma not_a_list_runtime (p : AnnotationsProp) :
  not_a_list (runtime p) = match p with NotArray _ => true | Annotations _ => false end.
Proof.
  destruct p as [v | l]; [| reflexivity].
  destruct v; simpl; try reflexivity; unfold not_a_list; simpl; apply orb_true_r.
Qed.

Lemma not_array_draws_nothing textWidth width height v c :
  renderPass textWidth width height (NotArray v) c
  = (Normal tt, opened width height c, [clearRect_ 0 0 width height]).
Proof.
  unfold renderPass. rewrite not_a_list_runtime. unfold opened. cbn.
  destruct (covers_bitmap 0 0 width height c); reflexivity.
Qed.

(** *** When the body throws *)

Lemma drawAnnotation_normal textWidth sx sy ann c :
  ~ raises sx ann -> outcome (drawAnnotation textWidth sx sy ann) c = Normal tt.
Proof.
  intros Hn. destruct ann as [t st en ce ra bx lbl].
  unfold raises in Hn; simpl in Hn.
  unfold outcome, drawAnnotation, drawLabel, drawArrow, colorOf, arc.
  split_cases; cbn; try reflexivity;
    exfalso; apply Hn; eqb_facts; subst;
    (split; [reflexivity |]); eexists; eexists; (split; [reflexivity |]);
    unfold radiusOr50;
    repeat match goal with H : Req_bool _ _ = _ |- _ => rewrite H end;
    assumption.
Qed.

Lemma forEach_normal textWidth sx sy l c :
  Forall (fun ann => ~ raises sx ann) l ->
  outcome (forEach l (drawAnnotation textWidth sx sy)) c = Normal tt.
Proof.
  intros Hl. revert c. induction Hl as [| a l Ha Hl IH]; intros c; simpl forEach.
  - reflexivity.
  - rewrite outcome_bind, (drawAnnotation_normal _ _ _ _ _ Ha). apply IH.
Qed.

(** *** Annotations that are skipped *)

Lemma malformed_skipped textWidth sx sy ann c :
  malformed ann ->
  drawAnnotation textWidth sx sy ann c
  = (Normal tt, styled (colorOf (type ann)) c, []).
Proof.
  destruct ann as [t st en ce ra bx lbl].
  unfold malformed, unknown_type, wrong_length; simpl.
  intros H. unfold drawAnnotation; simpl.
  destruct (String.eqb t "box") eqn:Eb; destruct (String.eqb t "highlight") eqn:Eh;
    destruct (String.eqb t "circle") eqn:Ec; destruct (String.eqb t "arrow") eqn:Ea;
    eqb_facts; subst; try discriminate; simpl;
    try reflexivity;
    try (exfalso; intuition congruence).
  all: destruct H as [H | [H | [H | H]]];
    try (exfalso; intuition congruence).
  all: try (destruct H as [_ H]).
  all: repeat match goal with
       | |- context [match ?x with _ => _ end] => is_var x; destruct x; simpl in *
       | H : _ \/ _ |- _ => destruct H
       end;
       try reflexivity; try (exfalso; congruence).
Qed.

Lemma outcome_skipped textWidth sx sy bad c :
  malformed bad -> outcome (drawAnnotation textWidth sx sy bad) c = Normal tt.
Proof. intros H. unfold outcome. rewrite (malformed_skipped _ _ _ _ _ H). reflexivity. Qed.

Lemma exec_skipped textWidth sx sy bad c :
  malformed bad ->
  exec (drawAnnotation textWidth sx sy bad) c = styled (colorOf (type bad)) c.
Proof. intros H. unfold exec. rewrite (malformed_skipped _ _ _ _ _ H). reflexivity. Qed.

Lemma calls_skipped textWidth sx sy bad c :
  malformed bad -> calls (drawAnnotation textWidth sx sy bad) c = [].
Proof. intros H. unfold calls. rewrite (malformed_skipped _ _ _ _ _ H). reflexivity. Qed.

Lemma styled_same_setup color c : same_setup (styled color c) c.
Proof. repeat split. Qed.

Lemma forEach_skip textWidth sx sy l1 bad l2 c :
  malformed bad ->
  outcome (forEach (l1 ++ bad :: l2) (drawAnnotation textWidth sx sy)) c
  = outcome (forEach (l1 ++ l2) (drawAnnotation textWidth sx sy)) c
  /\ calls (forEach (l1 ++ bad :: l2) (drawAnnotation textWidth sx sy)) c
     = calls (forEach (l1 ++ l2) (drawAnnotation textWidth sx sy)) c
  /\ surface (exec (forEach (l1 ++ bad :: l2) (drawAnnotation textWidth sx sy)) c)
     = surface (exec (forEach (l1 ++ l2) (drawAnnotation textWidth sx sy)) c).
Proof.
  intros Hbad. revert c. induction l1 as [| a l1 IH]; intros c; simpl app; simpl forEach.
  - rewrite outcome_bind, calls_bind, exec_bind.
    rewrite (outcome_skipped _ _ _ _ _ Hbad), (exec_skipped _ _ _ _ _ Hbad),
            (calls_skipped _ _ _ _ _ Hbad).
    cbn [app].
    destruct (forEach_alike (drawAnnotation textWidth sx sy) l2
                (drawAnnotation_alike textWidth sx sy)
                (styled (colorOf (type bad)) c) c (styled_same_setup _ _))
      as (_ & Ho & Hc & (delta & Hs1 & Hs2) & _).
    split; [exact Ho |]. split; [exact Hc |].
    rewrite Hs1, Hs2. reflexivity.
  - rewrite !outcome_bind, !calls_bind, !exec_bind.
    destruct (outcome (drawAnnotation textWidth sx sy a) c) as [[] | e].
    + destruct (IH (exec (drawAnnotation textWidth sx sy a) c)) as (Ho & Hc & Hs).
      split; [exact Ho |]. split; [rewrite Hc; reflexivity | exact Hs].
    + auto.
Qed.

Lemma forEach_all_skipped textWidth sx sy l c :
  Forall malformed l ->
  outcome (forEach l (drawAnnotation textWidth sx sy)) c = Normal tt
  /\ calls (forEach l (drawAnnotation textWidth sx sy)) c = [].
Proof.
  intros Hl. revert c. induction Hl as [| a l Ha Hl IH]; intros c; simpl forEach.
  - auto.
  - rewrite outcome_bind, calls_bind.
    rewrite (outcome_skipped _ _ _ _ _ Ha), (calls_skipped _ _ _ _ _ Ha).
    cbn [app]. apply IH.
Qed.

(** An annotation with a type outside the four, or with the
    coordinate field of its variant absent or of the wrong length, makes
    the body assign the two styles and nothing more: no call is issued,
    the surface and the path stay as they were, and the body ends
    normally.  The pass over a list that holds it ends as, issues the
    calls of, and paints the surface of the pass over the list without
    it, so every other annotation is drawn in its place.  A pass over
    annotations of this kind alone calls clearRect, nothing else, and
    ends normally; and the pass over the list that holds it ends normally
    when no other annotation is a circle with a negative radius in
    pixels, the one case in which a call of the body raises. *)
Theorem malformed_annotation_dropped
    (textWidth : string -> string -> R) (width height : R)
    (l1 l2 : list Annotation) (bad : Annotation) (c : Ctx) :
  malformed bad ->
  (forall sx sy c',
      drawAnnotation textWidth sx sy bad c'
      = (Normal tt, styled (colorOf (type bad)) c', []))
  /\ effect textWidth width height (Annotations [bad]) (Context c)
     = (Context (styled (colorOf (type bad)) (opened width height c)),
        Normal tt, [clearRect_ 0 0 width height])
  /\ (forall l, Forall malformed l ->
        outcome (renderPass textWidth width height (Annotations l)) c = Normal tt
        /\ calls (renderPass textWidth width height (Annotations l)) c
           = [clearRect_ 0 0 width height])
  /\ outcome (renderPass textWidth width height (Annotations (l1 ++ bad :: l2))) c
     = outcome (renderPass textWidth width height (Annotations (l1 ++ l2))) c
  /\ (Forall (fun ann => ~ raises (width / 1000) ann) (l1 ++ l2) ->
      outcome (renderPass textWidth width height (Annotations (l1 ++ bad :: l2))) c
      = Normal tt)
  /\ calls (renderPass textWidth width height (Annotations (l1 ++ bad :: l2))) c
     = calls (renderPass textWidth width height (Annotations (l1 ++ l2))) c
  /\ painted (renderPass textWidth width height (Annotations (l1 ++ bad :: l2))) c
     = painted (renderPass textWidth width height (Annotations (l1 ++ l2))) c.
Proof.
  intros Hbad.
  destruct (forEach_skip textWidth (width / 1000) (height / 1000) l1 bad l2
              (opened width height c) Hbad) as (Ho & Hc & Hs).
  split; [intros sx sy c'; apply malformed_skipped, Hbad |].
  split; [| split; [| split; [| split; [| split]]]].
  - unfold effect.
    destruct (renderPass_single textWidth width height bad c) as (So & Sc & _).
    rewrite So, Sc, renderPass_exec, loop_Annotations. simpl forEach.
    rewrite exec_bind.
    rewrite (outcome_skipped _ _ _ _ _ Hbad), (exec_skipped _ _ _ _ _ Hbad),
            (calls_skipped _ _ _ _ _ Hbad).
    reflexivity.
  - intros l Hl.
    destruct (forEach_all_skipped textWidth (width / 1000) (height / 1000) l
                (opened width height c) Hl) as (Fo & Fc).
    rewrite renderPass_outcome, renderPass_calls, loop_Annotations, Fo, Fc. auto.
  - rewrite !renderPass_outcome, !loop_Annotations. exact Ho.
  - intros Hl. rewrite renderPass_outcome, loop_Annotations, Ho.
    apply forEach_normal, Hl.
  - rewrite !renderPass_calls, !loop_Annotations. f_equal. exact Hc.
  - unfold painted. rewrite !renderPass_exec, !loop_Annotations. exact Hs.
Qed.

(** A list in which the second of three annotations has a box_2d of
    length 3. *)
Lemma malformed_annotation_dropped_example :
  malformed (Examples.box "b" [1; 2; 3])
  /\ calls (renderPass Examples.fixedPitch 800 600
             (Annotations ([Examples.circle "a" [500; 500] None]
                           ++ Examples.box "b" [1; 2; 3]
                           :: [Examples.box "c" [100; 200; 300; 400]])))
           (Examples.fresh 800 600)
     = calls (renderPass Examples.fixedPitch 800 600
             (Annotations ([Examples.circle "a" [500; 500] None]
                           ++ [Examples.box "c" [100; 200; 300; 400]])))
           (Examples.fresh 800 600).
Proof.
  assert (H : malformed (Examples.box "b" [1; 2; 3])).
  { right; left. split; [left; reflexivity | simpl; discriminate]. }
  split; [exact H |].
  apply (malformed_annotation_dropped Examples.fixedPitch 800 600
           [Examples.circle "a" [500; 500] None]
           [Examples.box "c" [100; 200; 300; 400]]
           (Examples.box "b" [1; 2; 3]) (Examples.fresh 800 600) H).
Defined.

(** *** Running the pass again *)

Lemma covers_own_bitmap (c : Ctx) :
  covers_bitmap 0 0 (bitmapWidth c) (bitmapHeight c) c = true.
Proof. unfold covers_bitmap. rewrite !Req_bool_refl. reflexivity. Qed.

Lemma opened_same_setup width height c d :
  bitmapWidth c = bitmapWidth d -> bitmapHeight c = bitmapHeight d ->
  same_setup (opened width height c) (opened width height d).
Proof. intros Hw Hh. unfold same_setup, opened; simpl. auto 10. Qed.

(** How a pass ends, the calls it makes and the surface it leaves on a
    canvas of the size of the props are functions of the props alone. *)
Lemma pass_from_props textWidth annotations (c d : Ctx) :
  bitmapWidth c = bitmapWidth d -> bitmapHeight c = bitmapHeight d ->
  let pass := renderPass textWidth (bitmapWidth c) (bitmapHeight c) annotations in
  outcome pass c = outcome pass d
  /\ calls pass c = calls pass d
  /\ painted pass c = painted pass d.
Proof.
  intros Hw Hh pass. subst pass. unfold painted.
  rewrite !renderPass_outcome, !renderPass_calls, !renderPass_exec.
  destruct (loop_alike textWidth (bitmapWidth c) (bitmapHeight c) annotations
              _ _ (opened_same_setup (bitmapWidth c) (bitmapHeight c) c d Hw Hh))
    as (_ & Ho & Hc & (delta & H1 & H2) & _).
  split; [exact Ho |]. split; [rewrite Hc; reflexivity |].
  rewrite H1, H2. unfold opened; simpl.
  rewrite covers_own_bitmap. rewrite Hw, Hh, covers_own_bitmap. reflexivity.
Qed.

Lemma renderPass_idempotent textWidth annotations (c : Ctx) :
  let pass := renderPass textWidth (bitmapWidth c) (bitmapHeight c) annotations in
  exec pass (exec pass c) = exec pass c.
Proof.
  intros pass. subst pass.
  set (w := bitmapWidth c). set (h := bitmapHeight c).
  rewrite !renderPass_exec.
  set (c1 := exec (loop textWidth w h annotations) (opened w h c)).
  destruct (loop_alike textWidth w h annotations _ _
              (same_setup_refl (opened w h c))) as (S1 & _).
  fold c1 in S1.
  assert (Hw : bitmapWidth c1 = w) by (destruct S1 as (_ & _ & _ & _ & H & _); exact H).
  assert (Hh : bitmapHeight c1 = h) by (destruct S1 as (_ & _ & _ & _ & _ & H); exact H).
  assert (S0 : same_setup (opened w h c) (opened w h c1)).
  { apply opened_same_setup; [rewrite Hw | rewrite Hh]; reflexivity. }
  destruct (loop_alike textWidth w h annotations _ _ S0)
    as (_ & _ & _ & (delta & P1 & P2) & Ss & Sf & Sp).
  destruct (loop_alike textWidth w h annotations _ _ (same_setup_refl (opened w h c1)))
    as (S2 & _).
  fold c1 in P1, Ss, Sf, Sp.
  apply ctx_eq.
  - eapply same_setup_trans; [exact S2 |].
    eapply same_setup_trans; [apply same_setup_sym, S0 | apply same_setup_sym, S1].
  - destruct Ss as [E | [E1 E2]]; [auto | rewrite E2; reflexivity].
  - destruct Sf as [E | [E1 E2]]; [auto | rewrite E2; reflexivity].
  - destruct Sp as [E | [E1 E2]]; [auto | rewrite E2; reflexivity].
  - rewrite P2, P1. unfold opened; simpl.
    replace (covers_bitmap 0 0 w h c1) with true
      by (rewrite <- Hw, <- Hh; symmetry; apply covers_own_bitmap).
    replace (covers_bitmap 0 0 w h c) with true
      by (symmetry; apply covers_own_bitmap).
    reflexivity.
Qed.

(** C9: on a canvas whose bitmap has the size of the props, running
    the effect a second time with the same annotations, width and height
    leaves the context, with its surface, as the first run left it, and
    the second run ends as the first and makes the same calls.  The
    first call of a pass is clearRect(0, 0, width, height), which leaves
    nothing on the surface, and the surface after a pass is the same
    from any two earlier states. *)
Theorem render_pass_idempotent
    (textWidth : string -> string -> R) (width height : R)
    (annotations : AnnotationsProp) (canvas : CanvasRef) :
  fits width height canvas ->
  let once := effect textWidth width height annotations canvas in
  let twice := effect textWidth width height annotations (fst (fst once)) in
  twice = once
  /\ (forall c, exists rest,
        calls (renderPass textWidth width height annotations) c
        = clearRect_ 0 0 width height :: rest)
  /\ (forall c, fits width height (Context c) ->
        surface (exec (clearRect 0 0 width height) c) = [])
  /\ forall c d,
       fits width height (Context c) -> fits width height (Context d) ->
       painted (renderPass textWidth width height annotations) c
       = painted (renderPass textWidth width height annotations) d.
Proof.
  intros Hfit once twice. subst once twice.
  split; [| split; [| split]].
  - destruct canvas as [| | c]; try reflexivity.
    destruct Hfit as [<- <-]. simpl.
    pose proof (renderPass_idempotent textWidth annotations c) as Hi. simpl in Hi.
    destruct (loop_alike textWidth (bitmapWidth c) (bitmapHeight c) annotations _ _
                (same_setup_refl (opened (bitmapWidth c) (bitmapHeight c) c)))
      as ((_ & _ & _ & _ & Hw & Hh) & _).
    rewrite <- renderPass_exec in Hw, Hh. simpl in Hw, Hh.
    destruct (pass_from_props textWidth annotations
                (exec (renderPass textWidth (bitmapWidth c) (bitmapHeight c) annotations) c)
                c Hw Hh) as (Ho & Hc & _).
    rewrite Hw, Hh in Ho, Hc.
    rewrite Hi, Ho, Hc. reflexivity.
  - intros c. eexists. apply renderPass_calls.
  - intros c [<- <-]. unfold exec, clearRect. simpl.
    rewrite covers_own_bitmap. reflexivity.
  - intros c d [<- <-] [Hw Hh].
    apply (pass_from_props textWidth annotations c d); congruence.
Qed.

Lemma render_pass_idempotent_example :
  fits 800 600 (Context (Examples.fresh 800 600))
  /\ effect Examples.fixedPitch 800 600
       (Annotations [Examples.highlight "leak" [100; 200; 300; 400];
                     Examples.circle "valve" [500; 500] None])
       (fst (fst (effect Examples.fixedPitch 800 600
                    (Annotations [Examples.highlight "leak" [100; 200; 300; 400];
                                  Examples.circle "valve" [500; 500] None])
                    (Context (Examples.fresh 800 600)))))
     = effect Examples.fixedPitch 800 600
         (Annotations [Examples.highlight "leak" [100; 200; 300; 400];
                       Examples.circle "valve" [500; 500] None])
         (Context (Examples.fresh 800 600)).
Proof.
  assert (H : fits 800 600 (Context (Examples.fresh 800 600))) by (split; reflexivity).
  split; [exact H |].
  apply (render_pass_idempotent Examples.fixedPitch 800 600
           (Annotations [Examples.highlight "leak" [100; 200; 300; 400];
                         Examples.circle "valve" [500; 500] None])
           (Context (Examples.fresh 800 600)) H).
Defined.

(** *** What each kind of annotation draws *)

Lemma drawLabel_trace textWidth text x y color c :
  outcome (drawLabel textWidth text x y color) c = Normal tt
  /\ calls (drawLabel textWidth text x y color) c = labelCalls textWidth (font c) text x y
  /\ painted (drawLabel textWidth text x y color) c
     = surface c ++ labelPaint textWidth (font c) (shadow c) text x y color
  /\ fillStyle (exec (drawLabel textWidth text x y color) c) = color.
Proof.
  trace. split; [| split; [| split]]; same_lists.
Qed.

Lemma box_trace textWidth sx sy st en ce ra ymin xmin ymax xmax lbl c :
  let ann := mkAnnotation "box" st en ce ra (Some [ymin; xmin; ymax; xmax]) lbl in
  let x := xmin * sx in
  let y := ymin * sy in
  let w := (xmax - xmin) * sx in
  let h := (ymax - ymin) * sy in
  outcome (drawAnnotation textWidth sx sy ann) c = Normal tt
  /\ calls (drawAnnotation textWidth sx sy ann) c
     = strokeRect_ x y w h :: labelCalls textWidth (font c) lbl x (y - 10)
  /\ painted (drawAnnotation textWidth sx sy ann) c
     = surface c
       ++ StrokedRect x y w h "#22c55e" (lineWidth c) (shadow c)
          :: labelPaint textWidth (font c) (shadow c) lbl x (y - 10) "#22c55e".
Proof.
  trace. split; [| split]; same_lists.
Qed.

Lemma highlight_trace textWidth sx sy st en ce ra ymin xmin ymax xmax lbl c :
  let ann := mkAnnotation "highlight" st en ce ra (Some [ymin; xmin; ymax; xmax]) lbl in
  let x := xmin * sx in
  let y := ymin * sy in
  let w := (xmax - xmin) * sx in
  let h := (ymax - ymin) * sy in
  outcome (drawAnnotation textWidth sx sy ann) c = Normal tt
  /\ calls (drawAnnotation textWidth sx sy ann) c
     = fillRect_ x y w h :: strokeRect_ x y w h
         :: labelCalls textWidth (font c) lbl x (y - 10)
  /\ painted (drawAnnotation textWidth sx sy ann) c
     = surface c
       ++ FilledRect x y w h "#f9731640" (shadow c)
          :: StrokedRect x y w h "#f97316" (lineWidth c) (shadow c)
          :: labelPaint textWidth (font c) (shadow c) lbl x (y - 10) "#f97316".
Proof.
  trace. split; [| split]; same_lists.
Qed.

Lemma circle_trace textWidth sx sy st en c0 c1 ra bx lbl c :
  let ann := mkAnnotation "circle" st en (Some [c0; c1]) ra bx lbl in
  let cx := c0 * sx in
  let cy := c1 * sy in
  let r := radiusOr50 ra * sx in
  0 <= r ->
  outcome (drawAnnotation textWidth sx sy ann) c = Normal tt
  /\ calls (drawAnnotation textWidth sx sy ann) c
     = beginPath_ :: arc_ cx cy r 0 (2 * PI) :: stroke_
         :: labelCalls textWidth (font c) lbl (cx - 20) (cy - r - 10)
  /\ painted (drawAnnotation textWidth sx sy ann) c
     = surface c
       ++ StrokedPath [Arc cx cy r 0 (2 * PI)] "#ef4444" (lineWidth c) (shadow c)
          :: labelPaint textWidth (font c) (shadow c) lbl (cx - 20) (cy - r - 10) "#ef4444".
Proof.
  intros ann cx cy r Hr. subst ann cx cy r. unfold radiusOr50 in *.
  trace.
  destruct (Rlt_dec _ 0) as [Hneg | _]; [lra |].
  cbn. rewrite <- ?app_assoc. cbn.
  split; [| split]; same_lists.
Qed.

Lemma circle_throws textWidth sx sy st en c0 c1 ra bx lbl c :
  let ann := mkAnnotation "circle" st en (Some [c0; c1]) ra bx lbl in
  let r := radiusOr50 ra * sx in
  r < 0 ->
  outcome (drawAnnotation textWidth sx sy ann) c = Throw IndexSizeError
  /\ calls (drawAnnotation textWidth sx sy ann) c
     = [beginPath_; arc_ (c0 * sx) (c1 * sy) r 0 (2 * PI)]
  /\ painted (drawAnnotation textWidth sx sy ann) c = surface c.
Proof.
  intros ann r Hr. subst ann r. unfold radiusOr50 in *.
  trace.
  destruct (Rlt_dec _ 0) as [_ | Hpos]; [| lra].
  cbn. auto.
Qed.

Lemma arrow_trace textWidth sx sy s0 s1 e0 e1 ce ra bx lbl c :
  let ann := mkAnnotation "arrow" (Some [s0; s1]) (Some [e0; e1]) ce ra bx lbl in
  let x1 := s0 * sx in
  let y1 := s1 * sy in
  let x2 := e0 * sx in
  let y2 := e1 * sy in
  let angle := Math_atan2 (y2 - y1) (x2 - x1) in
  let w1 := wing x2 y2 angle (-1) in
  let w2 := wing x2 y2 angle 1 in
  outcome (drawAnnotation textWidth sx sy ann) c = Normal tt
  /\ calls (drawAnnotation textWidth sx sy ann) c
     = [beginPath_; moveTo_ x1 y1; lineTo_ x2 y2; stroke_;
        beginPath_; moveTo_ x2 y2; lineTo_ (fst w1) (snd w1); lineTo_ (fst w2) (snd w2);
        lineTo_ x2 y2; fill_]
       ++ labelCalls textWidth (font c) lbl x1 (y1 - 20)
  /\ painted (drawAnnotation textWidth sx sy ann) c
     = surface c
       ++ [StrokedPath [MoveTo x1 y1; LineTo x2 y2] "#eab308" (lineWidth c) (shadow c);
           FilledPath [MoveTo x2 y2; LineTo (fst w1) (snd w1);
                       LineTo (fst w2) (snd w2); LineTo x2 y2]
                      "#eab308" (shadow c)]
       ++ labelPaint textWidth (font c) (shadow c) lbl x1 (y1 - 20) "#eab308".
Proof.
  trace. unfold wing; cbn.
  replace (Math_atan2 (e1 * sy - s1 * sy) (e0 * sx - s0 * sx) + -1 * (PI / 6))
    with (Math_atan2 (e1 * sy - s1 * sy) (e0 * sx - s0 * sx) - PI / 6) by lra.
  replace (Math_atan2 (e1 * sy - s1 * sy) (e0 * sx - s0 * sx) + 1 * (PI / 6))
    with (Math_atan2 (e1 * sy - s1 * sy) (e0 * sx - s0 * sx) + PI / 6) by lra.
  split; [| split]; same_lists.
Qed.

(** *** The direction angle and the head of an arrow *)

Lemma cos_sub_PI x : cos (x - PI) = - cos x.
Proof. rewrite cos_minus, cos_PI, sin_PI. ring. Qed.
Lemma sin_sub_PI x : sin (x - PI) = - sin x.
Proof. rewrite sin_minus, cos_PI, sin_PI. ring. Qed.

Lemma hypot_factor dx dy :
  dx <> 0 -> sqrt (dx² + dy²) = Rabs dx * sqrt (1 + (dy / dx)²).
Proof.
  intros Hx.
  replace (dx² + dy²) with (dx² * (1 + (dy / dx)²)) by (unfold Rsqr; field; exact Hx).
  rewrite sqrt_mult.
  - rewrite sqrt_Rsqr_abs. reflexivity.
  - apply Rle_0_sqr.
  - pose proof (Rle_0_sqr (dy / dx)). lra.
Qed.

Lemma sqrt_1_sqr_pos t : 0 < sqrt (1 + t²).
Proof. apply sqrt_lt_R0. pose proof (Rle_0_sqr t). lra. Qed.

Lemma atan2_direction dx dy :
  sqrt (dx² + dy²) * cos (Math_atan2 dy dx) = dx
  /\ sqrt (dx² + dy²) * sin (Math_atan2 dy dx) = dy.
Proof.
  unfold Math_atan2.
  destruct (Rlt_dec 0 dx) as [Hpos | Hnpos].
  - rewrite hypot_factor by lra. rewrite Rabs_pos_eq by lra.
    rewrite cos_atan, sin_atan.
    pose proof (sqrt_1_sqr_pos (dy / dx)) as Hs.
    split; field; lra.
  - destruct (Rlt_dec dx 0) as [Hneg | Hnneg].
    + rewrite hypot_factor by lra. rewrite Rabs_left by lra.
      pose proof (sqrt_1_sqr_pos (dy / dx)) as Hs.
      destruct (Rle_dec 0 dy).
      * rewrite neg_cos, neg_sin, cos_atan, sin_atan. split; field; lra.
      * rewrite cos_sub_PI, sin_sub_PI, cos_atan, sin_atan. split; field; lra.
    + assert (dx = 0) by lra. subst dx.
      replace (0² + dy²) with (dy²) by (unfold Rsqr; ring).
      rewrite sqrt_Rsqr_abs.
      destruct (Rlt_dec 0 dy).
      * rewrite cos_PI2, sin_PI2, Rabs_pos_eq by lra. split; ring.
      * destruct (Rlt_dec dy 0).
        -- rewrite cos_neg, sin_neg, cos_PI2, sin_PI2, Rabs_left by lra. split; ring.
        -- assert (dy = 0) by lra. subst dy. rewrite Rabs_R0. split; ring.
Qed.

Lemma sin_atan2_0 dx : sin (Math_atan2 0 dx) = 0.
Proof.
  unfold Math_atan2.
  assert (E : 0 / dx = 0) by (unfold Rdiv; ring).
  destruct (Rlt_dec 0 dx).
  - rewrite E, atan_0. apply sin_0.
  - destruct (Rlt_dec dx 0).
    + destruct (Rle_dec 0 0); [| lra]. rewrite E, atan_0, neg_sin, sin_0. ring.
    + destruct (Rlt_dec 0 0); [lra |]. apply sin_0.
Qed.

Lemma wings_mirror theta phi :
  sin theta = 0 ->
  cos (theta - phi) = cos (theta + phi) /\ sin (theta - phi) = - sin (theta + phi).
Proof.
  intros H. rewrite cos_minus, cos_plus, sin_minus, sin_plus, H. split; ring.
Qed.

Lemma unit_circle a : (cos a)² + (sin a)² = 1.
Proof. rewrite Rplus_comm. apply sin2_cos2. Qed.

Lemma wing_distance x2 y2 angle side :
  (fst (wing x2 y2 angle side) - x2)² + (snd (wing x2 y2 angle side) - y2)² = 15².
Proof.
  unfold wing; simpl.
  pose proof (unit_circle (angle + side * (PI / 6))) as U.
  unfold Rsqr in *.
  transitivity (15 * 15 * (cos (angle + side * (PI / 6)) * cos (angle + side * (PI / 6))
                           + sin (angle + side * (PI / 6)) * sin (angle + side * (PI / 6)))).
  - ring.
  - rewrite U. ring.
Qed.

(** The vector from the end point to a wing, against the vector from
    the end point back to the start: inner and outer product. *)
Lemma wing_products x1 y1 x2 y2 len angle side :
  x2 - x1 = len * cos angle -> y2 - y1 = len * sin angle ->
  (fst (wing x2 y2 angle side) - x2) * (x1 - x2)
    + (snd (wing x2 y2 angle side) - y2) * (y1 - y2)
  = 15 * len * cos (side * (PI / 6))
  /\ (x1 - x2) * (snd (wing x2 y2 angle side) - y2)
       - (y1 - y2) * (fst (wing x2 y2 angle side) - x2)
     = 15 * len * sin (side * (PI / 6)).
Proof.
  intros Hx Hy. unfold wing; simpl.
  replace (x1 - x2) with (- (len * cos angle)) by lra.
  replace (y1 - y2) with (- (len * sin angle)) by lra.
  rewrite cos_plus, sin_plus.
  pose proof (unit_circle angle) as U. unfold Rsqr in U.
  set (ca := cos angle) in *. set (sa := sin angle) in *.
  set (cb := cos (side * (PI / 6))). set (sb := sin (side * (PI / 6))).
  split.
  - transitivity (15 * len * cb * (ca * ca + sa * sa)); [ring | rewrite U; ring].
  - transitivity (15 * len * sb * (ca * ca + sa * sa)); [ring | rewrite U; ring].
Qed.

(** *** The geometry of each shape *)

(** C3, as the code has it: a box annotation with box_2d = [100, 200,
    300, 400] on an 800 by 600 surface is stroked as the rectangle with
    origin (160, 60), width 160 and height 120. *)
Theorem box_800x600 (textWidth : string -> string -> R) (c : Ctx) (lbl : string) :
  calls (renderPass textWidth 800 600
           (Annotations [Examples.box lbl [100; 200; 300; 400]])) c
  = [clearRect_ 0 0 800 600;
     strokeRect_ 160 60 160 120;
     measureText_ lbl;
     fillRect_ 154 30 (textWidth passFont lbl + 12) 24;
     fillText_ lbl 160 50]
  /\ exists before,
       painted (renderPass textWidth 800 600
                  (Annotations [Examples.box lbl [100; 200; 300; 400]])) c
       = before
         ++ [StrokedRect 160 60 160 120 "#22c55e" 3 passShadow;
             FilledRect 154 30 (textWidth passFont lbl + 12) 24 "rgba(0,0,0,0.8)"
                        passShadow;
             FilledText lbl 160 50 "#22c55e" passFont passShadow].
Proof.
  destruct (renderPass_single textWidth 800 600
              (Examples.box lbl [100; 200; 300; 400]) c) as (_ & Hc & Hp).
  rewrite Hc, Hp. unfold Examples.box.
  destruct (box_trace textWidth (800 / 1000) (600 / 1000) None None None None
              100 200 300 400 lbl (opened 800 600 c)) as (_ & Tc & Tp).
  rewrite Tc, Tp. split.
  - unfold labelCalls. simpl font. same_lists.
  - eexists. f_equal. unfold labelPaint, shadow. simpl. same_lists.
Qed.

(** C3 fails as stated: the rectangle stroked for that box on 800 by
    600 has origin (160, 60) and height 120, not origin (160, 80) and
    height 160. *)
Lemma box_800x600_not_as_stated :
  In (strokeRect_ 160 60 160 120)
     (calls (renderPass Examples.fixedPitch 800 600
               (Annotations [Examples.box "crack" [100; 200; 300; 400]]))
            (Examples.fresh 800 600))
  /\ ~ In (strokeRect_ 160 80 160 160)
       (calls (renderPass Examples.fixedPitch 800 600
                 (Annotations [Examples.box "crack" [100; 200; 300; 400]]))
              (Examples.fresh 800 600)).
Proof.
  destruct (renderPass_single Examples.fixedPitch 800 600
              (Examples.box "crack" [100; 200; 300; 400]) (Examples.fresh 800 600))
    as (_ & Hc & _).
  rewrite Hc. unfold Examples.box.
  rewrite (proj1 (proj2 (box_trace _ _ _ _ _ _ _ _ _ _ _ _ _))).
  split.
  - right. left. f_equal; lra.
  - simpl. intros [H | [H | [H | [H | [H | []]]]]]; try discriminate H.
    injection H as _ H _ _. lra.
Qed.

(** *** The coordinate mapping, in binary64 and over the reals *)

Lemma range_In n :
  forall start z, (start <= z < start + Z.of_nat n)%Z -> In z (Binary64.range n start).
Proof.
  induction n as [| n IH]; intros start z H; [lia |].
  simpl. destruct (Z.eq_dec start z) as [-> | Hne]; [left; reflexivity | right].
  apply IH. lia.
Qed.

Lemma range_forallb (P : Z -> bool) n start z :
  forallb P (Binary64.range n start) = true ->
  (start <= z < start + Z.of_nat n)%Z -> P z = true.
Proof.
  intros H Hz. rewrite forallb_forall in H. apply H, range_In, Hz.
Qed.

(** Every integer extent from 1 to 8192, every integer extent from 1 to
    1000, and every integer coordinate from 0 to 1000 on every integer
    extent from 1 to 4096, by evaluation. *)
Lemma ends_checked : forallb Binary64.endsOk (Binary64.range (Z.to_nat 8192) 1) = true.
Proof. vm_compute. reflexivity. Qed.

Lemma ends_exact_checked :
  forallb Binary64.endExact (Binary64.range (Z.to_nat 1000) 1) = true.
Proof. vm_compute. reflexivity. Qed.

Lemma proportional_checked :
  forallb (fun extent =>
             forallb (Binary64.proportionalOk extent) (Binary64.range (Z.to_nat 1001) 0))
          (Binary64.range (Z.to_nat 4096) 1) = true.
Proof. vm_compute. reflexivity. Qed.

(** C1, as the program computes it.  In binary64, where [width / 1000]
    rounds and the product rounds again: for every integer extent from 1
    to 8192 the mapping sends 0 to 0 and 1000 to the extent or to the
    number next to it, and to the extent itself when the extent is at
    most 1000; for every integer coordinate from 0 to 1000 on every
    integer extent from 1 to 4096 it gives the correctly rounded
    [c * E / 1000] or the number next to it; it does not clamp (1500 on
    800 gives 1200, -100 gives -80).  Over the reals [toPixel c E] is
    [c * E / 1000] for all [c] and [E]; it is linear in [c], sends 0 to 0
    and 1000 to [E], and does not clamp.  The pass maps through it,
    x-values with the width and y-values with the height: shown on the
    calls of a pass over one box and of a pass over one arrow. *)
Theorem coordinate_mapping (c E : R) :
  (forall extent : Z, (1 <= extent <= 8192)%Z ->
     PrimFloat.eqb (Binary64.toPixel (Binary64.ofZ 0) (Binary64.ofZ extent))
                   (Binary64.ofZ 0) = true
     /\ Binary64.near (Binary64.toPixel (Binary64.ofZ 1000) (Binary64.ofZ extent))
                      (Binary64.ofZ extent) = true)
  /\ (forall extent : Z, (1 <= extent <= 1000)%Z ->
        PrimFloat.eqb (Binary64.toPixel (Binary64.ofZ 1000) (Binary64.ofZ extent))
                      (Binary64.ofZ extent) = true)
  /\ (forall extent n : Z, (1 <= extent <= 4096)%Z -> (0 <= n <= 1000)%Z ->
        Binary64.near (Binary64.toPixel (Binary64.ofZ n) (Binary64.ofZ extent))
                      (PrimFloat.div (Binary64.ofZ (n * extent)) (Binary64.ofZ 1000))
        = true)
  /\ Binary64.toPixel (Binary64.ofZ 1500) (Binary64.ofZ 800) = Binary64.ofZ 1200
  /\ Binary64.toPixel (Binary64.ofZ (-100)) (Binary64.ofZ 800) = Binary64.ofZ (-80)
  /\ toPixel c E = c * E / 1000
  /\ toPixel 0 E = 0
  /\ toPixel 1000 E = E
  /\ (forall k, toPixel (k * c) E = k * toPixel c E)
  /\ (forall c', toPixel (c + c') E = toPixel c E + toPixel c' E)
  /\ (0 < E -> 1000 < c -> E < toPixel c E)
  /\ (0 < E -> c < 0 -> toPixel c E < 0)
  /\ forall (textWidth : string -> string -> R) (width height : R) (lbl : string)
            (ctx : Ctx) (x y x' y' : R),
       calls (renderPass textWidth width height
                (Annotations [Examples.box lbl [y; x; y'; x']])) ctx
       = clearRect_ 0 0 width height
         :: strokeRect_ (toPixel x width) (toPixel y height)
                        (toPixel (x' - x) width) (toPixel (y' - y) height)
         :: labelCalls textWidth passFont lbl (toPixel x width) (toPixel y height - 10)
       /\ calls (renderPass textWidth width height
                   (Annotations [Examples.arrow lbl [x; y] [x'; y']])) ctx
          = clearRect_ 0 0 width height
            :: [beginPath_;
                moveTo_ (toPixel x width) (toPixel y height);
                lineTo_ (toPixel x' width) (toPixel y' height);
                stroke_;
                beginPath_;
                moveTo_ (toPixel x' width) (toPixel y' height);
                lineTo_ (fst (arrowWing width height x y x' y' (-1)))
                        (snd (arrowWing width height x y x' y' (-1)));
                lineTo_ (fst (arrowWing width height x y x' y' 1))
                        (snd (arrowWing width height x y x' y' 1));
                lineTo_ (toPixel x' width) (toPixel y' height);
                fill_]
               ++ labelCalls textWidth passFont lbl (toPixel x width)
                    (toPixel y height - 20).
Proof.
  split.
  { intros extent H.
    pose proof (range_forallb _ (Z.to_nat 8192) 1 extent ends_checked ltac:(lia)) as Hc.
    unfold Binary64.endsOk in Hc. apply andb_true_iff in Hc. exact Hc. }
  split.
  { intros extent H.
    exact (range_forallb _ (Z.to_nat 1000) 1 extent ends_exact_checked ltac:(lia)). }
  split.
  { intros extent n He Hn.
    pose proof (range_forallb _ (Z.to_nat 4096) 1 extent proportional_checked ltac:(lia))
      as Hc.
    cbv beta in Hc.
    exact (range_forallb _ (Z.to_nat 1001) 0 n Hc ltac:(lia)). }
  split; [vm_compute; reflexivity |].
  split; [vm_compute; reflexivity |].
  unfold toPixel.
  split; [unfold Rdiv; ring |].
  split; [lra |].
  split; [lra |].
  split; [intros k; ring |].
  split; [intros c'; ring |].
  split; [intros HE Hc; nra |].
  split; [intros HE Hc; nra |].
  intros textWidth width height lbl ctx x y x' y'.
  split.
  - rewrite (proj1 (proj2 (renderPass_single _ _ _ _ _))). unfold Examples.box.
    rewrite (proj1 (proj2 (box_trace _ _ _ _ _ _ _ _ _ _ _ _ _))). reflexivity.
  - rewrite (proj1 (proj2 (renderPass_single _ _ _ _ _))). unfold Examples.arrow.
    rewrite (proj1 (proj2 (arrow_trace _ _ _ _ _ _ _ _ _ _ _ _))). reflexivity.
Qed.

(** The extent 1001 in binary64, and the coordinate 1500 on 800 over the
    reals. *)
Lemma coordinate_mapping_example :
  (1 <= 1001 <= 8192)%Z
  /\ Binary64.near (Binary64.toPixel (Binary64.ofZ 1000) (Binary64.ofZ 1001))
                   (Binary64.ofZ 1001) = true
  /\ 0 < 800 /\ 1000 < 1500 /\ 800 < toPixel 1500 800.
Proof.
  assert (HZ : (1 <= 1001 <= 8192)%Z) by lia.
  assert (HE : 0 < 800) by lra.
  assert (Hc : 1000 < 1500) by lra.
  destruct (coordinate_mapping 1500 800)
    as (F & _ & _ & _ & _ & _ & _ & _ & _ & _ & H & _).
  split; [exact HZ |]. split; [exact (proj2 (F 1001%Z HZ)) |].
  split; [exact HE |]. split; [exact Hc |].
  exact (H HE Hc).
Defined.

(** C1 fails as stated: in binary64 the division 1001 / 1000 rounds, and
    1000 times the quotient is 1000.9999999999999, the number next below
    1001; and 3 * (800 / 1000) is not 3 * 800 / 1000. *)
Lemma mapping_not_exact_in_binary64 :
  Binary64.toPixel (Binary64.ofZ 1000) (Binary64.ofZ 1001) = Binary64.below1001
  /\ Binary64.toPixel (Binary64.ofZ 1000) (Binary64.ofZ 1001) <> Binary64.ofZ 1001
  /\ PrimFloat.eqb (Binary64.toPixel (Binary64.ofZ 1000) (Binary64.ofZ 1001))
                   (Binary64.ofZ 1001) = false
  /\ PrimFloat.eqb (Binary64.toPixel (Binary64.ofZ 3) (Binary64.ofZ 800))
                   (PrimFloat.div (Binary64.ofZ (3 * 800)) (Binary64.ofZ 1000)) = false.
Proof.
  split; [vm_compute; reflexivity |].
  split; [| split; vm_compute; reflexivity].
  intros H.
  apply (f_equal (fun x => PrimFloat.eqb x (Binary64.ofZ 1001))) in H.
  vm_compute in H. discriminate H.
Qed.

(** C4: a box or highlight annotation with box_2d = [ymin, xmin, ymax,
    xmax] is drawn as the rectangle with origin (xmin * width / 1000,
    ymin * height / 1000), width (xmax - xmin) * width / 1000 and height
    (ymax - ymin) * height / 1000, for all reals: no order between the
    corners is asked for, a negative width or height reaches
    [strokeRect] and [fillRect] as computed, and the body ends normally
    (last part: a box with its corners swapped on 800 by 600). *)
Theorem box_rectangle
    (textWidth : string -> string -> R) (width height : R)
    (st en ce : option (list R)) (ra : option R)
    (ymin xmin ymax xmax : R) (lbl : string) (c : Ctx) :
  let x := xmin * width / 1000 in
  let y := ymin * height / 1000 in
  let w := (xmax - xmin) * width / 1000 in
  let h := (ymax - ymin) * height / 1000 in
  let shape t := mkAnnotation t st en ce ra (Some [ymin; xmin; ymax; xmax]) lbl in
  let body t := drawAnnotation textWidth (width / 1000) (height / 1000) (shape t) in
  calls (body "box") c
  = strokeRect_ x y w h :: labelCalls textWidth (font c) lbl x (y - 10)
  /\ outcome (body "box") c = Normal tt
  /\ calls (body "highlight") c
     = fillRect_ x y w h :: strokeRect_ x y w h
         :: labelCalls textWidth (font c) lbl x (y - 10)
  /\ outcome (body "highlight") c = Normal tt
  /\ calls (renderPass textWidth 800 600
              (Annotations [Examples.box lbl [300; 400; 100; 200]])) c
     = clearRect_ 0 0 800 600
         :: strokeRect_ 320 180 (-160) (-120)
         :: labelCalls textWidth passFont lbl 320 170
  /\ outcome (renderPass textWidth 800 600
                (Annotations [Examples.box lbl [300; 400; 100; 200]])) c
     = Normal tt.
Proof.
  intros x y w h shape body. subst x y w h shape body. cbv beta.
  destruct (box_trace textWidth (width / 1000) (height / 1000) st en ce ra
              ymin xmin ymax xmax lbl c) as (Bo & Bc & _).
  destruct (highlight_trace textWidth (width / 1000) (height / 1000) st en ce ra
              ymin xmin ymax xmax lbl c) as (Ho & Hc & _).
  destruct (renderPass_single textWidth 800 600
              (Examples.box lbl [300; 400; 100; 200]) c) as (So & Sc & _).
  destruct (box_trace textWidth (800 / 1000) (600 / 1000) None None None None
              300 400 100 200 lbl (opened 800 600 c)) as (To & Tc & _).
  split; [rewrite Bc; unfold labelCalls; same_lists |].
  split; [exact Bo |].
  split; [rewrite Hc; unfold labelCalls; same_lists |].
  split; [exact Ho |].
  split.
  - rewrite Sc. unfold Examples.box. rewrite Tc.
    unfold labelCalls. simpl font. same_lists.
  - rewrite So. exact To.
Qed.

(** X23: a circle annotation with center = [c0, c1]
    asks for the arc with centre (c0 * scaleX, c1 * scaleY) and radius
    r * scaleX, scaleX = width / 1000, whatever the height, where r is 50
    when the radius is absent or 0 and the radius otherwise.  When
    r * scaleX is not negative the arc is stroked and the label drawn;
    when it is negative [arc] raises IndexSizeError: nothing is painted
    and the body ends by throwing. *)
Theorem circle_radius
    (textWidth : string -> string -> R) (width height : R)
    (st en bx : option (list R)) (c0 c1 : R) (lbl : string) (c : Ctx) :
  let scaleX := width / 1000 in
  let scaleY := height / 1000 in
  let body ra :=
    drawAnnotation textWidth scaleX scaleY
      (mkAnnotation "circle" st en (Some [c0; c1]) ra bx lbl) in
  let drawn r :=
    beginPath_ :: arc_ (c0 * scaleX) (c1 * scaleY) (r * scaleX) 0 (2 * PI) :: stroke_
      :: labelCalls textWidth (font c) lbl (c0 * scaleX - 20)
           (c1 * scaleY - r * scaleX - 10) in
  (0 <= width -> calls (body None) c = drawn 50 /\ calls (body (Some 0)) c = drawn 50)
  /\ (forall v, v <> 0 -> 0 <= v * scaleX ->
        calls (body (Some v)) c = drawn v /\ outcome (body (Some v)) c = Normal tt)
  /\ (forall ra, 0 <= radiusOr50 ra * scaleX ->
        outcome (body ra) c = Normal tt
        /\ painted (body ra) c
           = surface c
             ++ StrokedPath
                  [Arc (c0 * scaleX) (c1 * scaleY) (radiusOr50 ra * scaleX) 0 (2 * PI)]
                  "#ef4444" (lineWidth c) (shadow c)
                :: labelPaint textWidth (font c) (shadow c) lbl (c0 * scaleX - 20)
                     (c1 * scaleY - radiusOr50 ra * scaleX - 10) "#ef4444")
  /\ (forall ra, radiusOr50 ra * scaleX < 0 ->
        outcome (body ra) c = Throw IndexSizeError
        /\ calls (body ra) c
           = [beginPath_;
              arc_ (c0 * scaleX) (c1 * scaleY) (radiusOr50 ra * scaleX) 0 (2 * PI)]
        /\ painted (body ra) c = surface c).
Proof.
  intros scaleX scaleY body drawn. subst body drawn. cbv beta.
  assert (R0 : radiusOr50 (Some 0) = 50).
  { unfold radiusOr50. rewrite Req_bool_refl. reflexivity. }
  assert (Rv : forall v, v <> 0 -> radiusOr50 (Some v) = v).
  { intros v Hv. unfold radiusOr50, Req_bool.
    destruct (Req_dec_T v 0); [contradiction | reflexivity]. }
  split; [| split; [| split]].
  - intros Hw.
    assert (H50 : 0 <= 50 * scaleX) by (subst scaleX; lra).
    split.
    + destruct (circle_trace textWidth scaleX scaleY st en c0 c1 None bx lbl c H50)
        as (_ & Hc & _). exact Hc.
    + assert (H0 : 0 <= radiusOr50 (Some 0) * scaleX) by (rewrite R0; exact H50).
      destruct (circle_trace textWidth scaleX scaleY st en c0 c1 (Some 0) bx lbl c H0)
        as (_ & Hc & _). rewrite Hc, R0. reflexivity.
  - intros v Hv Hr.
    assert (H0 : 0 <= radiusOr50 (Some v) * scaleX) by (rewrite (Rv v Hv); exact Hr).
    destruct (circle_trace textWidth scaleX scaleY st en c0 c1 (Some v) bx lbl c H0)
      as (Ho & Hc & _). rewrite Hc, (Rv v Hv). auto.
  - intros ra Hr.
    destruct (circle_trace textWidth scaleX scaleY st en c0 c1 ra bx lbl c Hr)
      as (Ho & _ & Hp). auto.
  - intros ra Hr.
    apply (circle_throws textWidth scaleX scaleY st en c0 c1 ra bx lbl c Hr).
Qed.

Lemma circle_radius_example :
  80 <> 0 /\ 0 <= 80 * (800 / 1000)
  /\ calls (drawAnnotation Examples.fixedPitch (800 / 1000) (600 / 1000)
              (mkAnnotation "circle" None None (Some [500; 500]) (Some 80) None "valve"))
           (Examples.fresh 800 600)
     = beginPath_
       :: arc_ (500 * (800 / 1000)) (500 * (600 / 1000)) (80 * (800 / 1000)) 0 (2 * PI)
       :: stroke_
       :: labelCalls Examples.fixedPitch (font (Examples.fresh 800 600)) "valve"
            (500 * (800 / 1000) - 20) (500 * (600 / 1000) - 80 * (800 / 1000) - 10).
Proof.
  assert (H : 80 <> 0) by lra.
  assert (Hr : 0 <= 80 * (800 / 1000)) by lra.
  split; [exact H |]. split; [exact Hr |].
  destruct (circle_radius Examples.fixedPitch 800 600 None None None 500 500 "valve"
              (Examples.fresh 800 600)) as (_ & Hv & _).
  exact (proj1 (Hv 80 H Hr)).
Defined.

(** C5, at the input where the code departs from it: a circle
    annotation with center [500, 500] and radius -5 on 800 by 600 asks
    for an arc of radius -4; [arc] raises IndexSizeError, the pass ends
    by throwing after clearRect, beginPath and arc, and no circle and no
    label is on the surface. *)
Lemma negative_radius_throws :
  outcome (renderPass Examples.fixedPitch 800 600
             (Annotations [Examples.circle "x" [500; 500] (Some (-5))]))
          (Examples.fresh 800 600)
  = Throw IndexSizeError
  /\ calls (renderPass Examples.fixedPitch 800 600
              (Annotations [Examples.circle "x" [500; 500] (Some (-5))]))
           (Examples.fresh 800 600)
     = [clearRect_ 0 0 800 600; beginPath_; arc_ 400 300 (-4) 0 (2 * PI)]
  /\ painted (renderPass Examples.fixedPitch 800 600
                (Annotations [Examples.circle "x" [500; 500] (Some (-5))]))
             (Examples.fresh 800 600)
     = [].
Proof.
  destruct (renderPass_single Examples.fixedPitch 800 600
              (Examples.circle "x" [500; 500] (Some (-5))) (Examples.fresh 800 600))
    as (So & Sc & Sp).
  rewrite So, Sc, Sp. unfold Examples.circle.
  assert (R5 : radiusOr50 (Some (-5)) = -5).
  { unfold radiusOr50, Req_bool. destruct (Req_dec_T (-5) 0); [lra | reflexivity]. }
  assert (Hr : radiusOr50 (Some (-5)) * (800 / 1000) < 0) by (rewrite R5; lra).
  destruct (circle_throws Examples.fixedPitch (800 / 1000) (600 / 1000) None None
              500 500 (Some (-5)) None "x" (opened 800 600 (Examples.fresh 800 600)) Hr)
    as (Ho & Hc & Hp).
  rewrite Ho, Hc, Hp, R5.
  split; [reflexivity |]. split.
  - same_lists.
  - unfold opened. simpl.
    unfold covers_bitmap. simpl. rewrite !Req_bool_refl. reflexivity.
Qed.

(** C6: an arrow annotation with start = [s0, s1] and end = [e0, e1] is
    drawn as the stroked line from the mapped start to the mapped end,
    then the filled path end, wing, wing, end, and the body ends
    normally.  Each wing is at distance
    15 from the end point.  With [angle] the direction angle
    atan2(y2 - y1, x2 - x1) of the line and [len] its length, the vector
    from the end point to a wing makes 30 degrees with the vector from
    the end point back to the start (inner product 15 * len * cos(PI/6)),
    the two wings on opposite sides (outer products -15 * len * sin(PI/6)
    and 15 * len * sin(PI/6)).  For the arrow from (0, 0) to (1000, 0)
    the line runs from (0, 0) to (width, 0) and the wings are mirror
    images in it. *)
Theorem arrow_geometry
    (textWidth : string -> string -> R) (width height : R)
    (s0 s1 e0 e1 : R) (ce bx : option (list R)) (ra : option R)
    (lbl : string) (c : Ctx) :
  let scaleX := width / 1000 in
  let scaleY := height / 1000 in
  let x1 := s0 * scaleX in
  let y1 := s1 * scaleY in
  let x2 := e0 * scaleX in
  let y2 := e1 * scaleY in
  let angle := Math_atan2 (y2 - y1) (x2 - x1) in
  let len := sqrt ((x2 - x1)² + (y2 - y1)²) in
  let w1 := wing x2 y2 angle (-1) in
  let w2 := wing x2 y2 angle 1 in
  let arrow a b := mkAnnotation "arrow" (Some a) (Some b) ce ra bx lbl in
  outcome (drawAnnotation textWidth scaleX scaleY (arrow [s0; s1] [e0; e1])) c = Normal tt
  /\ painted (drawAnnotation textWidth scaleX scaleY (arrow [s0; s1] [e0; e1])) c
  = surface c
    ++ [StrokedPath [MoveTo x1 y1; LineTo x2 y2] "#eab308" (lineWidth c) (shadow c);
        FilledPath [MoveTo x2 y2; LineTo (fst w1) (snd w1);
                    LineTo (fst w2) (snd w2); LineTo x2 y2]
                   "#eab308" (shadow c)]
    ++ labelPaint textWidth (font c) (shadow c) lbl x1 (y1 - 20) "#eab308"
  /\ w1 = (x2 - 15 * cos (angle - PI / 6), y2 - 15 * sin (angle - PI / 6))
  /\ w2 = (x2 - 15 * cos (angle + PI / 6), y2 - 15 * sin (angle + PI / 6))
  /\ (fst w1 - x2)² + (snd w1 - y2)² = 15²
  /\ (fst w2 - x2)² + (snd w2 - y2)² = 15²
  /\ x2 - x1 = len * cos angle
  /\ y2 - y1 = len * sin angle
  /\ (fst w1 - x2) * (x1 - x2) + (snd w1 - y2) * (y1 - y2) = 15 * len * cos (PI / 6)
  /\ (fst w2 - x2) * (x1 - x2) + (snd w2 - y2) * (y1 - y2) = 15 * len * cos (PI / 6)
  /\ (x1 - x2) * (snd w1 - y2) - (y1 - y2) * (fst w1 - x2) = - (15 * len * sin (PI / 6))
  /\ (x1 - x2) * (snd w2 - y2) - (y1 - y2) * (fst w2 - x2) = 15 * len * sin (PI / 6)
  /\ exists wx wy,
       calls (drawAnnotation textWidth scaleX scaleY (arrow [0; 0] [1000; 0])) c
       = [beginPath_; moveTo_ 0 0; lineTo_ width 0; stroke_;
          beginPath_; moveTo_ width 0; lineTo_ wx wy; lineTo_ wx (- wy);
          lineTo_ width 0; fill_]
         ++ labelCalls textWidth (font c) lbl 0 (-20).
Proof.
  intros scaleX scaleY x1 y1 x2 y2 angle len w1 w2 arrow.
  destruct (atan2_direction (x2 - x1) (y2 - y1)) as [Dx Dy].
  fold angle len in Dx, Dy.
  destruct (wing_products x1 y1 x2 y2 len angle (-1)) as [I1 O1]; [lra | lra |].
  destruct (wing_products x1 y1 x2 y2 len angle 1) as [I2 O2]; [lra | lra |].
  fold w1 in I1, O1. fold w2 in I2, O2.
  replace (-1 * (PI / 6)) with (- (PI / 6)) in I1, O1 by ring.
  rewrite cos_neg in I1. rewrite sin_neg in O1.
  replace (1 * (PI / 6)) with (PI / 6) in I2, O2 by ring.
  split; [apply arrow_trace |].
  split; [apply arrow_trace |].
  split; [unfold w1, wing; repeat f_equal; ring |].
  split; [unfold w2, wing; repeat f_equal; ring |].
  split; [apply wing_distance |].
  split; [apply wing_distance |].
  split; [lra |]. split; [lra |].
  split; [exact I1 |]. split; [exact I2 |].
  split; [rewrite O1; ring |]. split; [exact O2 |].
  subst arrow. cbv beta.
  rewrite (proj1 (proj2 (arrow_trace _ _ _ _ _ _ _ _ _ _ _ _))).
  set (a := Math_atan2 (0 * scaleY - 0 * scaleY) (1000 * scaleX - 0 * scaleX)).
  assert (Ha : sin a = 0).
  { subst a. replace (0 * scaleY - 0 * scaleY) with 0 by ring. apply sin_atan2_0. }
  destruct (wings_mirror a (PI / 6) Ha) as [Mc Ms].
  exists (fst (wing (1000 * scaleX) (0 * scaleY) a 1)),
         (snd (wing (1000 * scaleX) (0 * scaleY) a (-1))).
  unfold wing; simpl fst; simpl snd.
  replace (a + -1 * (PI / 6)) with (a - PI / 6) by ring.
  replace (a + 1 * (PI / 6)) with (a + PI / 6) by ring.
  rewrite Mc, Ms. subst scaleX scaleY.
  unfold labelCalls. same_lists.
Qed.

(** C7: a highlight annotation with a box_2d of length 4 paints its
    rectangle filled in the type color with the suffix 40, then stroked
    in the type color, then the label; a box annotation paints its
    rectangle stroked and then the label, and [fillRect] is never called
    on the rectangle of the box. *)
Theorem highlight_filled_box_stroked
    (textWidth : string -> string -> R) (scaleX scaleY : R)
    (st en ce : option (list R)) (ra : option R)
    (ymin xmin ymax xmax : R) (lbl : string) (c : Ctx) :
  let x := xmin * scaleX in
  let y := ymin * scaleY in
  let w := (xmax - xmin) * scaleX in
  let h := (ymax - ymin) * scaleY in
  let shape t := mkAnnotation t st en ce ra (Some [ymin; xmin; ymax; xmax]) lbl in
  painted (drawAnnotation textWidth scaleX scaleY (shape "highlight")) c
  = surface c
    ++ FilledRect x y w h (colorOf "highlight" ++ "40")%string (shadow c)
       :: StrokedRect x y w h (colorOf "highlight") (lineWidth c) (shadow c)
       :: labelPaint textWidth (font c) (shadow c) lbl x (y - 10) (colorOf "highlight")
  /\ (colorOf "highlight" ++ "40")%string = "#f9731640"
  /\ painted (drawAnnotation textWidth scaleX scaleY (shape "box")) c
     = surface c
       ++ StrokedRect x y w h (colorOf "box") (lineWidth c) (shadow c)
          :: labelPaint textWidth (font c) (shadow c) lbl x (y - 10) (colorOf "box")
  /\ calls (drawAnnotation textWidth scaleX scaleY (shape "box")) c
     = strokeRect_ x y w h :: labelCalls textWidth (font c) lbl x (y - 10)
  /\ ~ In (fillRect_ x y w h)
          (calls (drawAnnotation textWidth scaleX scaleY (shape "box")) c).
Proof.
  intros x y w h shape. subst shape. cbv beta.
  split; [apply highlight_trace |].
  split; [reflexivity |].
  split; [apply box_trace |].
  split; [apply box_trace |].
  rewrite (proj1 (proj2 (box_trace _ _ _ _ _ _ _ _ _ _ _ _ _))).
  unfold labelCalls. simpl.
  intros [H | [H | [H | [H | []]]]]; try discriminate H.
  injection H as H _ _ _. fold x in H. lra.
Qed.

(** C8, as the code has it: [drawLabel] paints a rectangle filled with
    rgba(0,0,0,0.8) at (anchorX - 6, anchorY - 20), of width the measured
    width of the text plus 12 and of height 24, then the text at the
    anchor in the color it is given.  The body calls it with the type
    color, at (x, y - 10) for a box or highlight, at (cx - 20, cy - r - 10)
    for a circle, at (x1, y1 - 20) for an arrow.  For the empty label the
    plate is still painted; where the empty string measures 0, its width
    is 12. *)
Theorem label_plate_and_anchor
    (textWidth : string -> string -> R) (scaleX scaleY : R) (c : Ctx) :
  (forall text x y color,
      calls (drawLabel textWidth text x y color) c
      = [measureText_ text;
         fillRect_ (x - 6) (y - 20) (textWidth (font c) text + 12) 24;
         fillText_ text x y]
      /\ painted (drawLabel textWidth text x y color) c
         = surface c
           ++ [FilledRect (x - 6) (y - 20) (textWidth (font c) text + 12) 24
                          "rgba(0,0,0,0.8)" (shadow c);
               FilledText text x y color (font c) (shadow c)])
  /\ (forall st en ce ra ymin xmin ymax xmax lbl,
        let x := xmin * scaleX in
        let y := ymin * scaleY in
        let w := (xmax - xmin) * scaleX in
        let h := (ymax - ymin) * scaleY in
        let shape t := mkAnnotation t st en ce ra (Some [ymin; xmin; ymax; xmax]) lbl in
        painted (drawAnnotation textWidth scaleX scaleY (shape "box")) c
        = surface c
          ++ StrokedRect x y w h (colorOf "box") (lineWidth c) (shadow c)
             :: labelPaint textWidth (font c) (shadow c) lbl x (y - 10) (colorOf "box")
        /\ painted (drawAnnotation textWidth scaleX scaleY (shape "highlight")) c
           = surface c
             ++ FilledRect x y w h "#f9731640" (shadow c)
                :: StrokedRect x y w h (colorOf "highlight") (lineWidth c) (shadow c)
                :: labelPaint textWidth (font c) (shadow c) lbl x (y - 10)
                     (colorOf "highlight"))
  /\ (forall st en c0 c1 ra bx lbl,
        let cx := c0 * scaleX in
        let cy := c1 * scaleY in
        let r := radiusOr50 ra * scaleX in
        0 <= r ->
        painted (drawAnnotation textWidth scaleX scaleY
                   (mkAnnotation "circle" st en (Some [c0; c1]) ra bx lbl)) c
        = surface c
          ++ StrokedPath [Arc cx cy r 0 (2 * PI)] (colorOf "circle") (lineWidth c) (shadow c)
             :: labelPaint textWidth (font c) (shadow c) lbl (cx - 20) (cy - r - 10)
                  (colorOf "circle"))
  /\ (forall s0 s1 e0 e1 ce ra bx lbl,
        let x1 := s0 * scaleX in
        let y1 := s1 * scaleY in
        exists line head,
          painted (drawAnnotation textWidth scaleX scaleY
                     (mkAnnotation "arrow" (Some [s0; s1]) (Some [e0; e1]) ce ra bx lbl)) c
          = surface c
            ++ [StrokedPath line (colorOf "arrow") (lineWidth c) (shadow c);
                FilledPath head (colorOf "arrow") (shadow c)]
            ++ labelPaint textWidth (font c) (shadow c) lbl x1 (y1 - 20) (colorOf "arrow"))
  /\ (forall x y color,
        textWidth (font c) "" = 0 ->
        painted (drawLabel textWidth "" x y color) c
        = surface c
          ++ [FilledRect (x - 6) (y - 20) 12 24 "rgba(0,0,0,0.8)" (shadow c);
              FilledText "" x y color (font c) (shadow c)]).
Proof.
  split; [| split; [| split; [| split]]].
  - intros text x y color.
    destruct (drawLabel_trace textWidth text x y color c) as (_ & Hc & Hp & _).
    split; assumption.
  - intros st en ce ra ymin xmin ymax xmax lbl x y w h shape.
    subst shape; cbv beta. split; [apply box_trace | apply highlight_trace].
  - intros st en c0 c1 ra bx lbl cx cy r Hr. apply circle_trace, Hr.
  - intros s0 s1 e0 e1 ce ra bx lbl x1 y1.
    eexists. eexists. apply arrow_trace.
  - intros x y color H0.
    destruct (drawLabel_trace textWidth "" x y color c) as (_ & _ & Hp & _).
    rewrite Hp. unfold labelPaint. rewrite H0.
    replace (0 + 12) with 12 by ring. reflexivity.
Qed.

Lemma label_plate_and_anchor_example :
  Examples.fixedPitch (font (Examples.fresh 800 600)) "" = 0
  /\ painted (drawLabel Examples.fixedPitch "" 100 100 "#22c55e") (Examples.fresh 800 600)
     = surface (Examples.fresh 800 600)
       ++ [FilledRect (100 - 6) (100 - 20) 12 24 "rgba(0,0,0,0.8)"
                      (shadow (Examples.fresh 800 600));
           FilledText "" 100 100 "#22c55e" (font (Examples.fresh 800 600))
                      (shadow (Examples.fresh 800 600))].
Proof.
  assert (H0 : Examples.fixedPitch (font (Examples.fresh 800 600)) "" = 0).
  { unfold Examples.fixedPitch. simpl. lra. }
  split; [exact H0 |].
  destruct (label_plate_and_anchor Examples.fixedPitch (800 / 1000) (600 / 1000)
              (Examples.fresh 800 600)) as (_ & _ & _ & _ & H).
  exact (H 100 100 "#22c55e" H0).
Defined.

(** C8 fails as stated: in a font in which the empty string measures 0,
    the plate painted for an empty label is 12 wide, not 0 wide. *)
Lemma empty_label_plate_is_12_wide :
  calls (drawLabel Examples.fixedPitch "" 100 100 "#22c55e") (Examples.fresh 800 600)
  = [measureText_ ""; fillRect_ (100 - 6) (100 - 20) (0 + 12) 24; fillText_ "" 100 100]
  /\ Examples.fixedPitch (font (Examples.fresh 800 600)) "" = 0
  /\ 0 + 12 <> 0.
Proof.
  assert (H0 : Examples.fixedPitch (font (Examples.fresh 800 600)) "" = 0).
  { unfold Examples.fixedPitch. simpl. lra. }
  split; [| split; [exact H0 | lra]].
  rewrite (proj1 (proj2 (drawLabel_trace _ _ _ _ _ _))).
  unfold labelCalls. rewrite H0. reflexivity.
Qed.

(** *** The sanitiser of [analyzeImage] *)

Lemma sanitize_fields parsed r :
  GeminiService.sanitize parsed = Some r ->
  Forall (fun '(name, field) =>
            field r = GeminiService.array_or_empty (GeminiService.prop parsed name))
         GeminiService.arrayFields
  /\ Forall (fun '(name, field, dflt) =>
               field r = Js.or_else (GeminiService.prop parsed name) (Js.VString dflt))
            GeminiService.stringFields.
Proof.
  intros H.
  destruct parsed; simpl in H; try discriminate H;
    injection H as <-; split; repeat constructor.
Qed.

Lemma array_or_empty_isArray v :
  Js.Array_isArray (GeminiService.array_or_empty v) = true.
Proof.
  unfold GeminiService.array_or_empty.
  destruct (Js.Array_isArray v) eqn:E; [exact E | reflexivity].
Qed.

Lemma or_else_truthy v dflt :
  dflt <> "" -> Js.ToBoolean (Js.or_else v (Js.VString dflt)) = true.
Proof.
  intros Hd. unfold Js.or_else.
  destruct (Js.ToBoolean v) eqn:E; [exact E |].
  simpl. apply String.eqb_neq in Hd. rewrite Hd. reflexivity.
Qed.

Lemma or_else_string v dflt :
  dflt <> "" ->
  (Js.ToBoolean v = false \/ exists s, v = Js.VString s) ->
  GeminiService.nonempty_string (Js.or_else v (Js.VString dflt)) = true.
Proof.
  intros Hd Hv. apply String.eqb_neq in Hd.
  unfold Js.or_else.
  destruct (Js.ToBoolean v) eqn:E.
  - destruct Hv as [Hv | [s ->]]; [discriminate Hv |]. exact E.
  - simpl. rewrite Hd. reflexivity.
Qed.

Lemma array_not_a_list v :
  Js.Array_isArray v = true -> not_a_list v = false.
Proof. destruct v; simpl; intros H; try discriminate H. reflexivity. Qed.

Lemma analyzeImage_text42 :
  GeminiService.analyzeImage Examples.parse42 (Js.Resolved (Some Examples.text42))
  = Js.Resolved Examples.result42.
Proof.
  unfold GeminiService.analyzeImage, Examples.parse42. simpl.
  unfold Examples.parsed42.
  rewrite lookup_singleton_eq, !lookup_singleton_ne by discriminate.
  unfold Js.or_else. simpl. unfold Req_bool.
  destruct (Req_dec_T 42 0); [lra | reflexivity].
Qed.

(** C10, as the code has it: when [analyzeImage] resolves, the text
    parsed to a value [parsed]; each of the five list fields of the
    result is [parsed]'s when that is an array and [[]] otherwise, so it
    is an array; each of the six text fields is [parsed]'s when that is
    truthy and the fixed default otherwise, so it is truthy, and it is a
    non-empty string when [parsed]'s was falsy or a string; and the check
    of the canvas for a list that is absent or not an array is false on
    the annotations of the result. *)
Theorem analyzeImage_sanitized
    (JSON_parse : string -> option Js.value)
    (response : Js.Outcome (option string)) (r : GeminiService.DiagnosisResponse) :
  GeminiService.analyzeImage JSON_parse response = Js.Resolved r ->
  exists text parsed,
    response = Js.Resolved (Some text) /\ JSON_parse text = Some parsed
    /\ Forall (fun '(name, field) =>
                 field r = GeminiService.array_or_empty (GeminiService.prop parsed name)
                 /\ Js.Array_isArray (field r) = true)
              GeminiService.arrayFields
    /\ Forall (fun '(name, field, dflt) =>
                 field r = Js.or_else (GeminiService.prop parsed name) (Js.VString dflt)
                 /\ Js.ToBoolean (field r) = true
                 /\ ((Js.ToBoolean (GeminiService.prop parsed name) = false
                      \/ exists s, GeminiService.prop parsed name = Js.VString s) ->
                     GeminiService.nonempty_string (field r) = true))
              GeminiService.stringFields
    /\ not_a_list (GeminiService.annotations r) = false.
Proof.
  unfold GeminiService.analyzeImage.
  destruct response as [[text |] |]; try discriminate.
  destruct (negb (String.eqb text "")); try discriminate.
  destruct (JSON_parse text) as [parsed |] eqn:Hp; try discriminate.
  destruct (GeminiService.sanitize parsed) as [r' |] eqn:Hs; try discriminate.
  intros H. injection H as ->.
  exists text, parsed.
  destruct (sanitize_fields parsed r Hs) as [Ha Hf].
  split; [reflexivity |]. split; [exact Hp |].
  split; [| split].
  - eapply Forall_impl; [exact Ha |].
    intros [name field] E. split; [exact E |].
    rewrite E. apply array_or_empty_isArray.
  - unfold GeminiService.stringFields in *.
    repeat match goal with
    | H : Forall _ (_ :: _) |- _ => inversion H; subst; clear H
    end.
    repeat constructor; try assumption;
      match goal with
      | E : ?f r = _ |- _ (?f r) = true => rewrite E
      | E : ?f r = _ |- _ -> _ (?f r) = true => rewrite E
      end;
      try (apply or_else_truthy; discriminate);
      try (apply or_else_string; discriminate).
  - apply array_not_a_list.
    unfold GeminiService.arrayFields in Ha.
    repeat match goal with
    | H : Forall _ (_ :: _) |- _ => inversion H; subst; clear H
    end.
    match goal with
    | E : GeminiService.annotations r = _ |- _ => rewrite E
    end.
    apply array_or_empty_isArray.
Qed.

Lemma analyzeImage_sanitized_example :
  GeminiService.analyzeImage Examples.parse42 (Js.Resolved (Some Examples.text42))
  = Js.Resolved Examples.result42
  /\ not_a_list (GeminiService.annotations Examples.result42) = false.
Proof.
  split; [exact analyzeImage_text42 |].
  destruct (analyzeImage_sanitized _ _ _ analyzeImage_text42)
    as (_ & _ & _ & _ & _ & _ & G).
  exact G.
Defined.

(** C10 fails as stated: for the response text {"object_detected": 42}
    [analyzeImage] resolves, and [object_detected] of the result is the
    number 42, not a string. *)
Lemma truthy_number_kept :
  GeminiService.analyzeImage Examples.parse42 (Js.Resolved (Some Examples.text42))
  = Js.Resolved Examples.result42
  /\ GeminiService.object_detected Examples.result42 = Js.VNumber 42
  /\ GeminiService.nonempty_string (GeminiService.object_detected Examples.result42)
     = false.
Proof.
  split; [exact analyzeImage_text42 |].
  split; reflexivity.
Qed.

End Properties.

(** ** More on the render pass *)

Module Overlay.
Import Canvas2D AnnotationCanvas Properties.

Ltac pick := first [reflexivity | left; reflexivity | right; pick].
Ltac wrong := simpl; first [exact I | discriminate].
Ltac of_type := first [reflexivity | left; reflexivity | right; reflexivity].

(** *** The monad laws the loop needs *)

Lemma run_triple {A : Type} (m : Draw A) (c : Ctx) :
  m c = (outcome m c, exec m c, calls m c).
Proof. unfold outcome, exec, calls. destruct (m c) as [[o c'] cs]. reflexivity. Qed.

Lemma bind_assoc (m k n : Draw unit) (c : Ctx) :
  bind (bind m (fun _ => k)) (fun _ => n) c = bind m (fun _ => bind k (fun _ => n)) c.
Proof.
  unfold bind. destruct (m c) as [[[[] | e] c1] cs]; simpl; [| reflexivity].
  destruct (k c1) as [[[[] | e] c2] cs2]; simpl; [| reflexivity].
  rewrite app_assoc. reflexivity.
Qed.

Lemma bind_ext (m k k' : Draw unit) (c : Ctx) :
  (forall d, k d = k' d) -> bind m (fun _ => k) c = bind m (fun _ => k') c.
Proof. intros H. unfold bind. rewrite H. reflexivity. Qed.

Lemma bind_ret_l (k : Draw unit) (c : Ctx) : bind (ret tt) (fun _ => k) c = k c.
Proof. unfold bind, ret. simpl. destruct (k c) as [[o c'] cs]. reflexivity. Qed.

Lemma forEach_app {A : Type} (f : A -> Draw unit) (l1 l2 : list A) (c : Ctx) :
  forEach (l1 ++ l2) f c = bind (forEach l1 f) (fun _ => forEach l2 f) c.
Proof.
  revert c. induction l1 as [| a l1 IH]; intros c; simpl app; simpl forEach.
  - symmetry. apply bind_ret_l.
  - rewrite bind_assoc. apply bind_ext. exact IH.
Qed.

Lemma outcome_app {A : Type} (f : A -> Draw unit) l1 l2 c :
  outcome (forEach (l1 ++ l2) f) c
  = outcome (bind (forEach l1 f) (fun _ => forEach l2 f)) c.
Proof. unfold outcome. rewrite forEach_app. reflexivity. Qed.

Lemma exec_app {A : Type} (f : A -> Draw unit) l1 l2 c :
  exec (forEach (l1 ++ l2) f) c
  = exec (bind (forEach l1 f) (fun _ => forEach l2 f)) c.
Proof. unfold exec. rewrite forEach_app. reflexivity. Qed.

Lemma calls_app {A : Type} (f : A -> Draw unit) l1 l2 c :
  calls (forEach (l1 ++ l2) f) c
  = calls (bind (forEach l1 f) (fun _ => forEach l2 f)) c.
Proof. unfold calls. rewrite forEach_app. reflexivity. Qed.

Lemma forEach_one {A : Type} (f : A -> Draw unit) a c :
  outcome (forEach [a] f) c = outcome (f a) c
  /\ calls (forEach [a] f) c = calls (f a) c
  /\ exec (forEach [a] f) c = exec (f a) c.
Proof.
  simpl forEach. rewrite outcome_bind, calls_bind, exec_bind.
  destruct (outcome (f a) c) as [[] | e]; [| auto].
  unfold outcome at 1, calls at 2, exec at 1. simpl. rewrite app_nil_r. auto.
Qed.

Lemma forEach_map {A B : Type} (f : A -> Draw unit) (g : B -> Draw unit)
    (h : A -> B) l c :
  (forall a d, f a d = g (h a) d) -> forEach l f c = forEach (map h l) g c.
Proof.
  intros H. revert c. induction l as [| a l IH]; intros c; simpl; [reflexivity |].
  unfold bind. rewrite <- H.
  destruct (fst (fst (f a c))); [rewrite IH |]; reflexivity.
Qed.

Lemma opened_surface width height c :
  fits width height (Context c) -> surface (opened width height c) = [].
Proof.
  intros [Hw Hh]. unfold opened. simpl.
  rewrite <- Hw, <- Hh, covers_own_bitmap. reflexivity.
Qed.

Lemma fresh_fits w h : fits w h (Context (Examples.fresh w h)).
Proof. split; reflexivity. Qed.

Lemma box_never_raises sx lbl b : ~ raises sx (Examples.box lbl b).
Proof. intros (Ht & _). discriminate Ht. Qed.

Lemma badCircle_raises : raises (800 / 1000) Examples.badCircle.
Proof.
  split; [reflexivity |]. exists 500, 500. split; [reflexivity |].
  unfold Examples.badCircle. simpl. unfold Req_bool.
  destruct (Req_dec_T (-5) 0); lra.
Qed.

(** *** Which annotations are drawn, and when the pass throws *)

(** X1: the body makes no call on the context exactly when the
    annotation is malformed: its type is outside the four, or the
    coordinate field of its variant is absent or of the wrong length.
    Every other annotation makes at least one call. *)
Theorem no_call_iff_malformed
    (textWidth : string -> string -> R) (sx sy : R) (ann : Annotation) (c : Ctx) :
  calls (drawAnnotation textWidth sx sy ann) c = [] <-> malformed ann.
Proof.
  split; [| apply calls_skipped].
  destruct ann as [t st en ce ra bx lbl].
  unfold calls, drawAnnotation, drawLabel, drawArrow, colorOf, arc,
         malformed, unknown_type, wrong_length.
  split_cases; cbn; intros H; try discriminate H; eqb_facts; subst;
    try discriminate; simpl;
    first [ solve [left; repeat split; assumption]
          | solve [right; left; split; [of_type | wrong]]
          | solve [right; right; left; split; [of_type | wrong]]
          | solve [right; right; right; split;
                   [of_type | first [left; wrong | right; wrong]]] ].
Qed.

Lemma throws_iff_raises textWidth sx sy ann c :
  outcome (drawAnnotation textWidth sx sy ann) c = Throw IndexSizeError <-> raises sx ann.
Proof.
  split.
  - destruct ann as [t st en ce ra bx lbl].
    unfold raises, outcome, drawAnnotation, drawLabel, drawArrow, colorOf, arc.
    split_cases; cbn; intros H; try discriminate H; eqb_facts; subst;
      (split; [reflexivity |]); eexists; eexists; (split; [reflexivity |]);
      unfold radiusOr50;
      repeat match goal with H : Req_bool _ _ = _ |- _ => rewrite H end;
      assumption.
  - intros Hr.
    destruct (outcome (drawAnnotation textWidth sx sy ann) c) as [[] | []] eqn:E;
      [| reflexivity].
    exfalso.
    destruct ann as [t st en ce ra bx lbl].
    destruct Hr as (Ht & c0 & c1 & Hc & Hr). simpl in Ht, Hc, Hr. subst t ce.
    rewrite (proj1 (circle_throws textWidth sx sy st en c0 c1 ra bx lbl c Hr)) in E.
    discriminate E.
Qed.

Lemma forEach_throws_iff textWidth sx sy l c :
  outcome (forEach l (drawAnnotation textWidth sx sy)) c = Throw IndexSizeError
  <-> Exists (raises sx) l.
Proof.
  revert c. induction l as [| a l IH]; intros c; simpl forEach.
  - split; [discriminate | intros H; inversion H].
  - rewrite outcome_bind.
    destruct (outcome (drawAnnotation textWidth sx sy a) c) as [[] | []] eqn:E.
    + rewrite IH. split; [apply Exists_cons_tl |].
      intros H. apply Exists_cons in H as [H | H]; [| exact H].
      apply (throws_iff_raises textWidth sx sy a c) in H. congruence.
    + split; [| reflexivity]. intros _. apply Exists_cons_hd.
      apply (throws_iff_raises textWidth sx sy a c), E.
Qed.

(** X2: the pass over a list ends by throwing IndexSizeError exactly
    when some annotation of the list is a circle with a center of length
    2 whose radius in pixels is negative, and ends normally exactly when
    none is. *)
Theorem pass_throws_iff
    (textWidth : string -> string -> R) (width height : R)
    (l : list Annotation) (c : Ctx) :
  (outcome (renderPass textWidth width height (Annotations l)) c = Throw IndexSizeError
   <-> Exists (raises (width / 1000)) l)
  /\ (outcome (renderPass textWidth width height (Annotations l)) c = Normal tt
      <-> Forall (fun ann => ~ raises (width / 1000) ann) l).
Proof.
  rewrite renderPass_outcome, loop_Annotations.
  pose proof (forEach_throws_iff textWidth (width / 1000) (height / 1000) l
                (opened width height c)) as Ht.
  split; [exact Ht |].
  split.
  - intros Hn. apply Forall_forall. intros a Ha Hr.
    assert (Hex : Exists (raises (width / 1000)) l) by (apply Exists_exists; eauto).
    apply Ht in Hex. congruence.
  - apply forEach_normal.
Qed.

Lemma forEach_stops textWidth sx sy l1 a l2 c :
  raises sx a ->
  forEach (l1 ++ a :: l2) (drawAnnotation textWidth sx sy) c
  = forEach (l1 ++ [a]) (drawAnnotation textWidth sx sy) c.
Proof.
  intros Hr. rewrite !forEach_app. unfold bind.
  destruct (fst (fst (forEach l1 (drawAnnotation textWidth sx sy) c))); [| reflexivity].
  simpl forEach. unfold bind.
  pose proof (proj2 (throws_iff_raises textWidth sx sy a
                 (snd (fst (forEach l1 (drawAnnotation textWidth sx sy) c)))) Hr) as E.
  unfold outcome in E. rewrite E. reflexivity.
Qed.

(** X3: once an annotation raises, the annotations after it are never
    reached: the pass is the pass over the list cut off behind it, and
    it ends by throwing.  When no annotation before it raises, those are
    drawn in full, and the last two calls are beginPath and the arc that
    raised, which paints nothing. *)
Theorem pass_stops_at_raise
    (textWidth : string -> string -> R) (width height : R)
    (l1 l2 : list Annotation) (a : Annotation) (c : Ctx) :
  raises (width / 1000) a ->
  renderPass textWidth width height (Annotations (l1 ++ a :: l2)) c
  = renderPass textWidth width height (Annotations (l1 ++ [a])) c
  /\ outcome (renderPass textWidth width height (Annotations (l1 ++ a :: l2))) c
     = Throw IndexSizeError
  /\ (Forall (fun ann => ~ raises (width / 1000) ann) l1 ->
      exists c0 c1,
        center a = Some [c0; c1]
        /\ calls (renderPass textWidth width height (Annotations (l1 ++ a :: l2))) c
           = calls (renderPass textWidth width height (Annotations l1)) c
             ++ [beginPath_;
                 arc_ (c0 * (width / 1000)) (c1 * (height / 1000))
                      (radiusOr50 (radius a) * (width / 1000)) 0 (2 * PI)]
        /\ painted (renderPass textWidth width height (Annotations (l1 ++ a :: l2))) c
           = painted (renderPass textWidth width height (Annotations l1)) c).
Proof.
  intros Hr.
  set (sx := width / 1000) in *. set (sy := height / 1000).
  set (o := opened width height c).
  assert (Hstop : renderPass textWidth width height (Annotations (l1 ++ a :: l2)) c
                  = renderPass textWidth width height (Annotations (l1 ++ [a])) c).
  { rewrite (run_triple (renderPass _ _ _ (Annotations (l1 ++ a :: l2)))),
            (run_triple (renderPass _ _ _ (Annotations (l1 ++ [a])))).
    rewrite !renderPass_outcome, !renderPass_exec, !renderPass_calls, !loop_Annotations.
    fold sx sy o. unfold outcome, exec, calls.
    rewrite (forEach_stops textWidth sx sy l1 a l2 o Hr). reflexivity. }
  split; [exact Hstop |].
  split.
  - rewrite renderPass_outcome, loop_Annotations.
    apply forEach_throws_iff. apply Exists_app. right. apply Exists_cons_hd. exact Hr.
  - intros Hl1.
    destruct a as [t st en ce ra bx lbl].
    destruct Hr as (Ht & c0 & c1 & Hc & Hr). simpl in Ht, Hc, Hr. subst t ce.
    exists c0, c1. split; [reflexivity |].
    destruct (circle_throws textWidth sx sy st en c0 c1 ra bx lbl
                (exec (forEach l1 (drawAnnotation textWidth sx sy)) o) Hr)
      as (To & Tc & Tp).
    unfold painted in *.
    replace (calls (renderPass textWidth width height
               (Annotations
                  (l1 ++ mkAnnotation "circle" st en (Some [c0; c1]) ra bx lbl :: l2))) c)
      with (calls (renderPass textWidth width height
               (Annotations
                  (l1 ++ [mkAnnotation "circle" st en (Some [c0; c1]) ra bx lbl]))) c)
      by (unfold calls; rewrite Hstop; reflexivity).
    replace (exec (renderPass textWidth width height
               (Annotations
                  (l1 ++ mkAnnotation "circle" st en (Some [c0; c1]) ra bx lbl :: l2))) c)
      with (exec (renderPass textWidth width height
               (Annotations
                  (l1 ++ [mkAnnotation "circle" st en (Some [c0; c1]) ra bx lbl]))) c)
      by (unfold exec; rewrite Hstop; reflexivity).
    rewrite !renderPass_exec, !renderPass_calls, !loop_Annotations.
    fold sx sy o.
    rewrite calls_app, exec_app, calls_bind, exec_bind.
    rewrite (forEach_normal textWidth sx sy l1 o Hl1).
    destruct (forEach_one (drawAnnotation textWidth sx sy)
                (mkAnnotation "circle" st en (Some [c0; c1]) ra bx lbl)
                (exec (forEach l1 (drawAnnotation textWidth sx sy)) o))
      as (_ & Fc & Fe).
    rewrite Fc, Fe, Tc, Tp. simpl radius. split; reflexivity.
Qed.

(** A box, a circle with radius -5, a second box: the second box is
    never reached. *)
Lemma pass_stops_at_raise_example :
  raises (800 / 1000) Examples.badCircle
  /\ renderPass Examples.fixedPitch 800 600
       (Annotations ([Examples.box "a" [100; 200; 300; 400]]
                     ++ Examples.badCircle :: [Examples.box "b" [1; 2; 3; 4]]))
       (Examples.fresh 800 600)
     = renderPass Examples.fixedPitch 800 600
         (Annotations ([Examples.box "a" [100; 200; 300; 400]] ++ [Examples.badCircle]))
         (Examples.fresh 800 600).
Proof.
  split; [exact badCircle_raises |].
  apply (pass_stops_at_raise Examples.fixedPitch 800 600
           [Examples.box "a" [100; 200; 300; 400]] [Examples.box "b" [1; 2; 3; 4]]
           Examples.badCircle (Examples.fresh 800 600) badCircle_raises).
Defined.

(** *** The pass over a list in two parts *)

(** X4: on a canvas of the size of the props, a pass over [l1 ++ l2]
    whose first part does not raise makes the calls of the pass over
    [l1] and then, but for the opening clearRect, those of the pass over
    [l2]; it leaves the paint of the first with the paint of the second
    on top, and ends as the second.  What an annotation draws does not
    depend on the annotations before it. *)
Theorem pass_appends
    (textWidth : string -> string -> R) (width height : R)
    (l1 l2 : list Annotation) (c : Ctx) :
  fits width height (Context c) ->
  Forall (fun ann => ~ raises (width / 1000) ann) l1 ->
  outcome (renderPass textWidth width height (Annotations (l1 ++ l2))) c
  = outcome (renderPass textWidth width height (Annotations l2)) c
  /\ calls (renderPass textWidth width height (Annotations (l1 ++ l2))) c
     = calls (renderPass textWidth width height (Annotations l1)) c
       ++ tl (calls (renderPass textWidth width height (Annotations l2)) c)
  /\ painted (renderPass textWidth width height (Annotations (l1 ++ l2))) c
     = painted (renderPass textWidth width height (Annotations l1)) c
       ++ painted (renderPass textWidth width height (Annotations l2)) c.
Proof.
  intros Hfit Hl1.
  set (sx := width / 1000) in *. set (sy := height / 1000).
  set (o := opened width height c).
  set (f := drawAnnotation textWidth sx sy).
  unfold painted.
  rewrite !renderPass_outcome, !renderPass_exec, !renderPass_calls, !loop_Annotations.
  fold sx sy o f. simpl tl.
  rewrite outcome_app, calls_app, exec_app, outcome_bind, calls_bind, exec_bind.
  pose proof (forEach_normal textWidth sx sy l1 o Hl1) as Hn. fold f in Hn.
  rewrite !Hn.
  destruct (forEach_alike f l1 (drawAnnotation_alike textWidth sx sy) o o
              (same_setup_refl o)) as (S1 & _).
  destruct (forEach_alike f l2 (drawAnnotation_alike textWidth sx sy) _ _ S1)
    as (_ & Ho & Hc & (delta & P1 & P2) & _).
  pose proof (opened_surface width height c Hfit) as So. fold o in So.
  rewrite Ho, Hc, P1, P2, So. simpl. auto.
Qed.

Lemma pass_appends_example :
  fits 800 600 (Context (Examples.fresh 800 600))
  /\ painted (renderPass Examples.fixedPitch 800 600
                (Annotations ([Examples.box "a" [100; 200; 300; 400]]
                              ++ [Examples.circle "b" [500; 500] None])))
             (Examples.fresh 800 600)
     = painted (renderPass Examples.fixedPitch 800 600
                  (Annotations [Examples.box "a" [100; 200; 300; 400]]))
               (Examples.fresh 800 600)
       ++ painted (renderPass Examples.fixedPitch 800 600
                     (Annotations [Examples.circle "b" [500; 500] None]))
                  (Examples.fresh 800 600).
Proof.
  split; [apply fresh_fits |].
  apply (pass_appends Examples.fixedPitch 800 600
           [Examples.box "a" [100; 200; 300; 400]]
           [Examples.circle "b" [500; 500] None] (Examples.fresh 800 600)
           (fresh_fits 800 600)).
  constructor; [apply box_never_raises | constructor].
Defined.

(** *** The style of everything painted *)

Lemma drawAnnotation_in_style textWidth sx sy ann c :
  lineWidth c = 3 -> shadow c = passShadow -> font c = passFont ->
  exists delta,
    surface (exec (drawAnnotation textWidth sx sy ann) c) = surface c ++ delta
    /\ Forall in_style delta.
Proof.
  destruct c as [ss fs lw sc sb fnt p bw bh s]. unfold shadow. simpl.
  intros -> [= -> ->] ->.
  destruct ann as [t st en ce ra bx lbl].
  unfold exec, drawAnnotation, drawLabel, drawArrow, colorOf, arc, shadow.
  split_cases; cbn; rewrite <- ?app_assoc;
    first [ eexists; split; [reflexivity |]
          | exists []; split; [rewrite app_nil_r; reflexivity |] ];
    simpl;
    repeat match goal with
           | |- Forall _ (_ :: _) => constructor
           | |- Forall _ [] => constructor
           end;
    simpl; repeat split; pick.
Qed.

Lemma forEach_in_style textWidth sx sy l c :
  lineWidth c = 3 -> shadow c = passShadow -> font c = passFont ->
  Forall in_style (surface c) ->
  Forall in_style (surface (exec (forEach l (drawAnnotation textWidth sx sy)) c)).
Proof.
  revert c. induction l as [| a l IH]; intros c Hlw Hsh Hf Hs; simpl forEach.
  - exact Hs.
  - rewrite exec_bind.
    destruct (drawAnnotation_in_style textWidth sx sy a c Hlw Hsh Hf) as (delta & Hd & Hin).
    assert (Hs' : Forall in_style (surface (exec (drawAnnotation textWidth sx sy a) c))).
    { rewrite Hd. apply Forall_app. split; assumption. }
    destruct (outcome (drawAnnotation textWidth sx sy a) c) as [[] | e]; [| exact Hs'].
    destruct (drawAnnotation_alike textWidth sx sy a c c (same_setup_refl c))
      as ((E1 & E2 & E3 & E4 & _) & _).
    apply IH; [congruence | | congruence | exact Hs'].
    unfold shadow in *. congruence.
Qed.

(** X5: on a canvas of the size of the props, everything on the
    surface after a pass, however it ended, was painted under the shadow
    of the pass, strokes with line width 3 and text in its font, and in
    the colour of a drawn type (red, yellow, green or orange), the
    translucent orange of a highlight or the dark plate of a label.  The
    default blue is never painted, and nothing painted before the pass
    is left. *)
Theorem pass_paints_in_style
    (textWidth : string -> string -> R) (width height : R)
    (annotations : AnnotationsProp) (c : Ctx) :
  fits width height (Context c) ->
  Forall in_style (painted (renderPass textWidth width height annotations) c).
Proof.
  intros Hfit. unfold painted. rewrite renderPass_exec.
  pose proof (opened_surface width height c Hfit) as So.
  unfold loop. destruct (not_a_list (runtime annotations)).
  - unfold exec, ret. simpl fst. simpl snd. rewrite So. constructor.
  - apply forEach_in_style; try reflexivity. rewrite So. constructor.
Qed.

Lemma pass_paints_in_style_example :
  fits 800 600 (Context (Examples.fresh 800 600))
  /\ Forall in_style
       (painted (renderPass Examples.fixedPitch 800 600
                   (Annotations [Examples.highlight "leak" [100; 200; 300; 400];
                                 Examples.arrow "turn" [0; 0] [1000; 0]]))
                (Examples.fresh 800 600)).
Proof.
  split; [apply fresh_fits |].
  apply (pass_paints_in_style Examples.fixedPitch 800 600
           (Annotations [Examples.highlight "leak" [100; 200; 300; 400];
                         Examples.arrow "turn" [0; 0] [1000; 0]])
           (Examples.fresh 800 600) (fresh_fits 800 600)).
Defined.

(** *** Fields of other variants *)

Lemma ownFields_same textWidth sx sy ann c :
  drawAnnotation textWidth sx sy ann c = drawAnnotation textWidth sx sy (ownFields ann) c.
Proof.
  destruct ann as [t st en ce ra bx lbl].
  unfold drawAnnotation, ownFields. simpl.
  destruct (String.eqb t "box") eqn:Eb; destruct (String.eqb t "highlight") eqn:Eh;
    destruct (String.eqb t "circle") eqn:Ec; destruct (String.eqb t "arrow") eqn:Ea;
    simpl; rewrite ?Eb, ?Eh, ?Ec, ?Ea; simpl; reflexivity.
Qed.

(** X6: the body reads the type, the label and the fields of the
    annotation's own variant, and no other field: a box with a stray
    radius or start is drawn as without it, and a pass over a list is
    the pass over the list with every stray field taken away. *)
Theorem other_fields_ignored
    (textWidth : string -> string -> R) (width height : R)
    (l : list Annotation) (c : Ctx) :
  (forall sx sy ann d,
      drawAnnotation textWidth sx sy ann d
      = drawAnnotation textWidth sx sy (ownFields ann) d)
  /\ renderPass textWidth width height (Annotations l) c
     = renderPass textWidth width height (Annotations (map ownFields l)) c.
Proof.
  split; [intros; apply ownFields_same |].
  rewrite (run_triple (renderPass _ _ _ (Annotations l))),
          (run_triple (renderPass _ _ _ (Annotations (map ownFields l)))).
  rewrite !renderPass_outcome, !renderPass_exec, !renderPass_calls, !loop_Annotations.
  unfold outcome, exec, calls.
  rewrite (forEach_map _ (drawAnnotation textWidth (width / 1000) (height / 1000))
             ownFields l (opened width height c)
             (ownFields_same textWidth (width / 1000) (height / 1000))).
  reflexivity.
Qed.

(** *** Nothing to draw *)

(** X7: without a canvas or without a context the effect does nothing
    at all.  With a context and [annotations] absent, not an array or an
    empty array, it clears the surface, sets the shared attributes and
    draws nothing: one call, a normal end, and on a canvas of the size
    of the props an empty surface. *)
Theorem nothing_to_draw
    (textWidth : string -> string -> R) (width height : R)
    (annotations : AnnotationsProp) (c : Ctx) :
  elements annotations = [] ->
  effect textWidth width height annotations NoCanvas = (NoCanvas, Normal tt, [])
  /\ effect textWidth width height annotations NoContext = (NoContext, Normal tt, [])
  /\ effect textWidth width height annotations (Context c)
     = (Context (opened width height c), Normal tt, [clearRect_ 0 0 width height])
  /\ (fits width height (Context c) -> surface (opened width height c) = []).
Proof.
  intros He. split; [reflexivity |]. split; [reflexivity |]. split.
  - unfold effect.
    rewrite renderPass_outcome, renderPass_exec, renderPass_calls.
    unfold loop. rewrite He. destruct (not_a_list (runtime annotations)); reflexivity.
  - apply opened_surface.
Qed.

Lemma nothing_to_draw_example :
  elements (NotArray (NString "none")) = []
  /\ effect Examples.fixedPitch 800 600 (NotArray (NString "none"))
       (Context (Examples.fresh 800 600))
     = (Context (opened 800 600 (Examples.fresh 800 600)), Normal tt,
        [clearRect_ 0 0 800 600]).
Proof.
  split; [reflexivity |].
  apply (nothing_to_draw Examples.fixedPitch 800 600 (NotArray (NString "none"))
           (Examples.fresh 800 600) eq_refl).
Defined.

(** *** The head of an arrow in closed form *)

Lemma wing_sides angle :
  cos (angle + -1 * (PI / 6)) = cos angle * (sqrt 3 / 2) + sin angle * (1 / 2)
  /\ sin (angle + -1 * (PI / 6)) = sin angle * (sqrt 3 / 2) - cos angle * (1 / 2)
  /\ cos (angle + 1 * (PI / 6)) = cos angle * (sqrt 3 / 2) - sin angle * (1 / 2)
  /\ sin (angle + 1 * (PI / 6)) = sin angle * (sqrt 3 / 2) + cos angle * (1 / 2).
Proof.
  replace (angle + -1 * (PI / 6)) with (angle - PI / 6) by ring.
  replace (angle + 1 * (PI / 6)) with (angle + PI / 6) by ring.
  rewrite cos_minus, sin_minus, cos_plus, sin_plus, cos_PI6, sin_PI6.
  repeat split; ring.
Qed.

Lemma wing_closed_form x1 y1 x2 y2 :
  let dx := x2 - x1 in
  let dy := y2 - y1 in
  let len := sqrt (dx² + dy²) in
  0 < len ->
  wing x2 y2 (Math_atan2 dy dx) (-1)
  = (x2 - 15 / len * (dx * (sqrt 3 / 2) + dy * (1 / 2)),
     y2 - 15 / len * (dy * (sqrt 3 / 2) - dx * (1 / 2)))
  /\ wing x2 y2 (Math_atan2 dy dx) 1
     = (x2 - 15 / len * (dx * (sqrt 3 / 2) - dy * (1 / 2)),
        y2 - 15 / len * (dy * (sqrt 3 / 2) + dx * (1 / 2))).
Proof.
  intros dx dy len Hlen.
  destruct (atan2_direction dx dy) as [Dx Dy]. fold len in Dx, Dy.
  destruct (wing_sides (Math_atan2 dy dx)) as (C1 & S1 & C2 & S2).
  unfold wing. rewrite C1, S1, C2, S2.
  set (ca := cos (Math_atan2 dy dx)) in *. set (sa := sin (Math_atan2 dy dx)) in *.
  rewrite <- Dx, <- Dy.
  split; f_equal; field; lra.
Qed.

Lemma wings_apart x2 y2 angle :
  (fst (wing x2 y2 angle (-1)) - fst (wing x2 y2 angle 1))²
  + (snd (wing x2 y2 angle (-1)) - snd (wing x2 y2 angle 1))² = 15².
Proof.
  destruct (wing_sides angle) as (C1 & S1 & C2 & S2).
  unfold wing. simpl. rewrite C1, S1, C2, S2.
  pose proof (unit_circle angle) as U. unfold Rsqr in *.
  set (ca := cos angle) in *. set (sa := sin angle) in *.
  transitivity (15 * 15 * (ca * ca + sa * sa)); [field | rewrite U; ring].
Qed.

Lemma atan2_0_0 : Math_atan2 0 0 = 0.
Proof.
  unfold Math_atan2.
  destruct (Rlt_dec 0 0); [lra |]. reflexivity.
Qed.

(** X8: for an arrow whose mapped start and end differ, the two wing
    points without trigonometry.  With (dx, dy) the vector from start to
    end in pixels and len its length, the wings are the end point minus
    15/len times (dx, dy) turned by 30 degrees to either side. *)
Theorem arrow_head_closed_form
    (textWidth : string -> string -> R) (width height : R)
    (s0 s1 e0 e1 : R) (ce bx : option (list R)) (ra : option R)
    (lbl : string) (c : Ctx) :
  let scaleX := width / 1000 in
  let scaleY := height / 1000 in
  let x1 := s0 * scaleX in
  let y1 := s1 * scaleY in
  let x2 := e0 * scaleX in
  let y2 := e1 * scaleY in
  let dx := x2 - x1 in
  let dy := y2 - y1 in
  let len := sqrt (dx² + dy²) in
  0 < len ->
  calls (drawAnnotation textWidth scaleX scaleY
           (mkAnnotation "arrow" (Some [s0; s1]) (Some [e0; e1]) ce ra bx lbl)) c
  = [beginPath_; moveTo_ x1 y1; lineTo_ x2 y2; stroke_;
     beginPath_; moveTo_ x2 y2;
     lineTo_ (x2 - 15 / len * (dx * (sqrt 3 / 2) + dy * (1 / 2)))
             (y2 - 15 / len * (dy * (sqrt 3 / 2) - dx * (1 / 2)));
     lineTo_ (x2 - 15 / len * (dx * (sqrt 3 / 2) - dy * (1 / 2)))
             (y2 - 15 / len * (dy * (sqrt 3 / 2) + dx * (1 / 2)));
     lineTo_ x2 y2; fill_]
    ++ labelCalls textWidth (font c) lbl x1 (y1 - 20).
Proof.
  intros scaleX scaleY x1 y1 x2 y2 dx dy len Hlen.
  rewrite (proj1 (proj2 (arrow_trace textWidth scaleX scaleY s0 s1 e0 e1 ce ra bx lbl c))).
  fold x1 y1 x2 y2. fold dx dy.
  destruct (wing_closed_form x1 y1 x2 y2 Hlen) as [W1 W2].
  fold dx dy len in W1, W2. rewrite W1, W2. reflexivity.
Qed.

Lemma unit_arrow_length :
  0 < sqrt ((1000 * (1000 / 1000) - 0 * (1000 / 1000))²
            + (0 * (1000 / 1000) - 0 * (1000 / 1000))²).
Proof. apply sqrt_lt_R0. unfold Rsqr. lra. Qed.

(** The arrow from (0, 0) to (1000, 0) on a surface of 1000 by 1000. *)
Lemma arrow_head_closed_form_example :
  0 < sqrt ((1000 * (1000 / 1000) - 0 * (1000 / 1000))²
            + (0 * (1000 / 1000) - 0 * (1000 / 1000))²)
  /\ exists wx1 wy1 wx2 wy2,
    calls (drawAnnotation Examples.fixedPitch (1000 / 1000) (1000 / 1000)
             (Examples.arrow "turn" [0; 0] [1000; 0])) (Examples.fresh 1000 1000)
    = [beginPath_; moveTo_ (0 * (1000 / 1000)) (0 * (1000 / 1000));
       lineTo_ (1000 * (1000 / 1000)) (0 * (1000 / 1000)); stroke_;
       beginPath_; moveTo_ (1000 * (1000 / 1000)) (0 * (1000 / 1000));
       lineTo_ wx1 wy1; lineTo_ wx2 wy2;
       lineTo_ (1000 * (1000 / 1000)) (0 * (1000 / 1000)); fill_]
      ++ labelCalls Examples.fixedPitch "10px sans-serif" "turn"
           (0 * (1000 / 1000)) (0 * (1000 / 1000) - 20).
Proof.
  split; [exact unit_arrow_length |].
  do 4 eexists.
  apply (arrow_head_closed_form Examples.fixedPitch 1000 1000 0 0 1000 0
           None None None "turn" (Examples.fresh 1000 1000) unit_arrow_length).
Defined.

(** X9: the head of every arrow is an equilateral triangle of side
    15: each wing is 15 from the end point and the wings are 15 apart.
    An arrow whose start and end coincide still gets its head, drawn as
    for an arrow pointing right: wings 15 * sqrt 3 / 2 to the left of
    the point, 7.5 below and above it. *)
Theorem arrow_head_equilateral
    (textWidth : string -> string -> R) (sx sy : R)
    (s0 s1 e0 e1 : R) (ce bx : option (list R)) (ra : option R)
    (lbl : string) (c : Ctx) :
  (exists w1 w2 : R * R,
      painted (drawAnnotation textWidth sx sy
                 (mkAnnotation "arrow" (Some [s0; s1]) (Some [e0; e1]) ce ra bx lbl)) c
      = surface c
        ++ [StrokedPath [MoveTo (s0 * sx) (s1 * sy); LineTo (e0 * sx) (e1 * sy)]
                        "#eab308" (lineWidth c) (shadow c);
            FilledPath [MoveTo (e0 * sx) (e1 * sy); LineTo (fst w1) (snd w1);
                        LineTo (fst w2) (snd w2); LineTo (e0 * sx) (e1 * sy)]
                       "#eab308" (shadow c)]
        ++ labelPaint textWidth (font c) (shadow c) lbl (s0 * sx) (s1 * sy - 20) "#eab308"
      /\ (fst w1 - fst w2)² + (snd w1 - snd w2)² = 15²
      /\ (fst w1 - e0 * sx)² + (snd w1 - e1 * sy)² = 15²
      /\ (fst w2 - e0 * sx)² + (snd w2 - e1 * sy)² = 15²)
  /\ calls (drawAnnotation textWidth sx sy
              (mkAnnotation "arrow" (Some [e0; e1]) (Some [e0; e1]) ce ra bx lbl)) c
     = [beginPath_; moveTo_ (e0 * sx) (e1 * sy); lineTo_ (e0 * sx) (e1 * sy); stroke_;
        beginPath_; moveTo_ (e0 * sx) (e1 * sy);
        lineTo_ (e0 * sx - 15 * (sqrt 3 / 2)) (e1 * sy + 15 / 2);
        lineTo_ (e0 * sx - 15 * (sqrt 3 / 2)) (e1 * sy - 15 / 2);
        lineTo_ (e0 * sx) (e1 * sy); fill_]
       ++ labelCalls textWidth (font c) lbl (e0 * sx) (e1 * sy - 20).
Proof.
  split.
  - eexists; eexists. split; [apply arrow_trace |].
    split; [apply wings_apart |]. split; apply wing_distance.
  - rewrite (proj1 (proj2 (arrow_trace textWidth sx sy e0 e1 e0 e1 ce ra bx lbl c))).
    replace (e1 * sy - e1 * sy) with 0 by ring.
    replace (e0 * sx - e0 * sx) with 0 by ring.
    rewrite atan2_0_0.
    destruct (wing_sides 0) as (C1 & S1 & C2 & S2).
    unfold wing. rewrite C1, S1, C2, S2, cos_0, sin_0. simpl fst. simpl snd.
    same_lists.
Qed.

(** *** The calls of a pass, in the order of the list *)

Lemma drawAnnotation_calls textWidth sx sy ann c :
  ~ raises sx ann ->
  calls (drawAnnotation textWidth sx sy ann) c
  = annotationCalls textWidth (font c) sx sy ann.
Proof.
  intros Hn. destruct ann as [t st en ce ra bx lbl].
  unfold raises in Hn; simpl in Hn.
  unfold calls, annotationCalls, drawAnnotation, drawLabel, drawArrow, colorOf, arc,
         labelCalls, radiusOr50.
  split_cases; cbn; rewrite <- ?app_assoc; cbn;
    first [ reflexivity
          | solve [same_lists]
          | exfalso; apply Hn; eqb_facts; subst;
            (split; [reflexivity |]); eexists; eexists; (split; [reflexivity |]);
            unfold radiusOr50;
            repeat match goal with H : Req_bool _ _ = _ |- _ => rewrite H end;
            assumption ].
Qed.

Lemma forEach_calls textWidth sx sy l c :
  Forall (fun ann => ~ raises sx ann) l ->
  calls (forEach l (drawAnnotation textWidth sx sy)) c
  = flat_map (annotationCalls textWidth (font c) sx sy) l.
Proof.
  intros Hl. revert c. induction Hl as [| a l Ha Hl IH]; intros c; simpl forEach.
  - reflexivity.
  - rewrite calls_bind, (drawAnnotation_normal _ _ _ _ _ Ha).
    rewrite (drawAnnotation_calls _ _ _ _ _ Ha), IH.
    destruct (drawAnnotation_alike textWidth sx sy a c c (same_setup_refl c))
      as ((_ & _ & _ & Hf & _) & _).
    rewrite Hf. reflexivity.
Qed.

Lemma malformed_never_raises sx ann : malformed ann -> ~ raises sx ann.
Proof.
  destruct ann as [t st en ce ra bx lbl].
  unfold malformed, unknown_type, wrong_length, raises; simpl.
  intros H (Ht & c0 & c1 & Hc & _). subst t ce. simpl in H.
  destruct H as [(_ & H & _) | [([H | H] & _) | [(_ & H) | (H & _)]]];
    first [discriminate H | apply H; reflexivity].
Qed.

(** X22: when no annotation of the list is a circle with a negative
    radius in pixels, the pass ends normally and its calls are clearRect
    and then, in the order of the list, the calls of each annotation by
    its variant: fillRect for a highlight, strokeRect and the label; or
    beginPath, arc, stroke and the label; or the line, the head and the
    label; and none for a malformed annotation. *)
Theorem pass_in_order
    (textWidth : string -> string -> R) (width height : R)
    (l : list Annotation) (c : Ctx) :
  Forall (fun ann => ~ raises (width / 1000) ann) l ->
  outcome (renderPass textWidth width height (Annotations l)) c = Normal tt
  /\ calls (renderPass textWidth width height (Annotations l)) c
     = clearRect_ 0 0 width height
       :: flat_map (annotationCalls textWidth passFont (width / 1000) (height / 1000)) l
  /\ (forall ann, malformed ann ->
        annotationCalls textWidth passFont (width / 1000) (height / 1000) ann = []).
Proof.
  intros Hl. split; [| split].
  - rewrite renderPass_outcome, loop_Annotations. apply forEach_normal, Hl.
  - rewrite renderPass_calls, loop_Annotations, (forEach_calls _ _ _ _ _ Hl). reflexivity.
  - intros ann Hm.
    pose proof (drawAnnotation_calls textWidth (width / 1000) (height / 1000) ann
                  (opened width height c) (malformed_never_raises _ _ Hm)) as E.
    simpl font in E. rewrite <- E. apply calls_skipped, Hm.
Qed.

Lemma pass_in_order_example :
  Forall (fun ann => ~ raises (800 / 1000) ann)
         [Examples.box "a" [1; 2; 3]; Examples.box "c" [100; 200; 300; 400]]
  /\ calls (renderPass Examples.fixedPitch 800 600
              (Annotations [Examples.box "a" [1; 2; 3];
                            Examples.box "c" [100; 200; 300; 400]]))
           (Examples.fresh 800 600)
     = clearRect_ 0 0 800 600
       :: flat_map (annotationCalls Examples.fixedPitch passFont (800 / 1000) (600 / 1000))
            [Examples.box "a" [1; 2; 3]; Examples.box "c" [100; 200; 300; 400]].
Proof.
  assert (H : Forall (fun ann => ~ raises (800 / 1000) ann)
                [Examples.box "a" [1; 2; 3]; Examples.box "c" [100; 200; 300; 400]]).
  { repeat constructor; apply box_never_raises. }
  split; [exact H |].
  apply (pass_in_order Examples.fixedPitch 800 600 _ (Examples.fresh 800 600) H).
Defined.

(** *** A malformed annotation next to a circle with a negative radius *)

Lemma box3_malformed : malformed (Examples.box "a" [1; 2; 3]).
Proof. right; left. split; [left; reflexivity | simpl; discriminate]. Qed.

(** C2, at the input where the code departs from it: a box with a
    box_2d of length 3, a circle with radius -5, a box, on 800 by 600.
    The first box is skipped without a call; the arc of the circle has
    radius -4 and raises IndexSizeError, which ends the pass; the last
    box is never drawn and the surface stays empty. *)
Theorem malformed_then_negative_radius :
  malformed (Examples.box "a" [1; 2; 3])
  /\ outcome (renderPass Examples.fixedPitch 800 600
                (Annotations [Examples.box "a" [1; 2; 3]; Examples.badCircle;
                              Examples.box "c" [100; 200; 300; 400]]))
             (Examples.fresh 800 600)
     = Throw IndexSizeError
  /\ calls (renderPass Examples.fixedPitch 800 600
              (Annotations [Examples.box "a" [1; 2; 3]; Examples.badCircle;
                            Examples.box "c" [100; 200; 300; 400]]))
           (Examples.fresh 800 600)
     = [clearRect_ 0 0 800 600; beginPath_; arc_ 400 300 (-4) 0 (2 * PI)]
  /\ painted (renderPass Examples.fixedPitch 800 600
                (Annotations [Examples.box "a" [1; 2; 3]; Examples.badCircle;
                              Examples.box "c" [100; 200; 300; 400]]))
             (Examples.fresh 800 600)
     = [].
Proof.
  split; [exact box3_malformed |].
  set (o := opened 800 600 (Examples.fresh 800 600)).
  set (f := drawAnnotation Examples.fixedPitch (800 / 1000) (600 / 1000)).
  unfold painted.
  rewrite renderPass_outcome, renderPass_calls, renderPass_exec, loop_Annotations.
  fold o f.
  assert (Hrun : forEach [Examples.box "a" [1; 2; 3]; Examples.badCircle;
                          Examples.box "c" [100; 200; 300; 400]] f o
                 = forEach [Examples.badCircle] f (styled "#22c55e" o)).
  { change [Examples.box "a" [1; 2; 3]; Examples.badCircle;
            Examples.box "c" [100; 200; 300; 400]]
      with ([Examples.box "a" [1; 2; 3]] ++ Examples.badCircle
            :: [Examples.box "c" [100; 200; 300; 400]]).
    unfold f. rewrite (forEach_stops _ _ _ _ _ _ _ badCircle_raises).
    simpl app. simpl forEach. unfold bind at 1.
    rewrite (malformed_skipped _ _ _ _ o box3_malformed). simpl.
    destruct (bind _ _ _) as [[o' c'] cs]. reflexivity. }
  unfold outcome, calls, exec. rewrite Hrun.
  destruct (forEach_one f Examples.badCircle (styled "#22c55e" o)) as (Fo & Fc & Fe).
  unfold outcome, calls, exec in Fo, Fc, Fe. rewrite Fo, Fc, Fe.
  assert (R5 : radiusOr50 (Some (-5)) = -5).
  { unfold radiusOr50, Req_bool. destruct (Req_dec_T (-5) 0); [lra | reflexivity]. }
  assert (Hr : radiusOr50 (Some (-5)) * (800 / 1000) < 0) by (rewrite R5; lra).
  destruct (circle_throws Examples.fixedPitch (800 / 1000) (600 / 1000) None None
              500 500 (Some (-5)) None "x" (styled "#22c55e" o) Hr)
    as (Ho & Hc & Hp).
  unfold outcome, calls, painted, exec in Ho, Hc, Hp.
  unfold f, Examples.badCircle, Examples.circle.
  rewrite Ho, Hc, Hp, R5.
  split; [reflexivity |]. split.
  - same_lists.
  - unfold o, opened, styled. simpl.
    unfold covers_bitmap. simpl. rewrite !Req_bool_refl. reflexivity.
Qed.

End Overlay.

(** ** More on the Gemini service *)

Module Service.
Import Js GeminiService GeminiRequest.

(** *** The data URL prefix *)

Lemma after_app (p s : string) : after p (p ++ s)%string = Some s.
Proof.
  induction p as [| a p IH]; simpl; [reflexivity |].
  rewrite Ascii.eqb_refl. exact IH.
Qed.

Lemma after_Some (p s r : string) : after p s = Some r -> s = (p ++ r)%string.
Proof.
  revert s. induction p as [| a p IH]; intros s; simpl.
  - intros [= ->]. reflexivity.
  - destruct s as [| b s]; [discriminate |].
    destruct (Ascii.eqb a b) eqn:E; [| discriminate].
    apply Ascii.eqb_eq in E. subst b. intros H.
    change (String a s = String a (p ++ r)%string). f_equal. apply IH. exact H.
Qed.

Lemma wordRun_app (w r : string) :
  allWord w = true ->
  match r with
  | EmptyString => True
  | String a _ => wordChar a = false
  end ->
  wordRun (w ++ r)%string = (w, r).
Proof.
  intros Hw Hr. induction w as [| a w IH]; simpl.
  - destruct r as [| b r]; [reflexivity |]. simpl. rewrite Hr. reflexivity.
  - simpl in Hw. apply andb_true_iff in Hw as [Ha Hw].
    rewrite Ha, (IH Hw). reflexivity.
Qed.

Lemma wordRun_spec (s : string) :
  s = (fst (wordRun s) ++ snd (wordRun s))%string /\ allWord (fst (wordRun s)) = true.
Proof.
  induction s as [| a s [IH1 IH2]]; simpl; [auto |].
  destruct (wordChar a) eqn:E; simpl.
  - split; [| rewrite E; exact IH2].
    change (String a s = String a (fst (wordRun s) ++ snd (wordRun s))%string).
    f_equal. exact IH1.
  - auto.
Qed.

(** X10: for a data URL of a base64 image, whatever its subtype (one or
    more letters, digits or underscores), what is sent as image data is
    the payload behind the comma, whole and unchanged. *)
Theorem base64Data_strips (w payload : string) :
  w <> "" -> allWord w = true ->
  base64Data (dataUrl w payload) = payload.
Proof.
  intros Hne Hw. unfold base64Data, dataUrl.
  rewrite after_app.
  rewrite (wordRun_app w (";base64," ++ payload)%string Hw) by reflexivity.
  destruct w as [| a w]; [contradiction |].
  rewrite after_app. reflexivity.
Qed.

Lemma base64Data_strips_example :
  "jpeg" <> "" /\ allWord "jpeg" = true
  /\ base64Data (dataUrl "jpeg" "/9j/4AAQ") = "/9j/4AAQ".
Proof.
  split; [discriminate |]. split; [reflexivity |].
  apply (base64Data_strips "jpeg" "/9j/4AAQ"); [discriminate | reflexivity].
Defined.

(** X11: the replacement takes off a prefix of that form and does
    nothing else: the image data is the argument itself, or the argument
    is a data URL of a base64 image with the image data as its payload.
    A string of any other form is sent as it is: raw base64, a data URL
    of another media type, a subtype with a character outside letters,
    digits and underscore (svg+xml). *)
Theorem base64Data_only_strips (s : string) :
  (base64Data s = s
   \/ exists w, w <> "" /\ allWord w = true /\ s = dataUrl w (base64Data s))
  /\ base64Data "data:image/svg+xml;base64,PHN2Zz4=" = "data:image/svg+xml;base64,PHN2Zz4="
  /\ base64Data "data:," = "data:,".
Proof.
  split; [| split; reflexivity].
  unfold base64Data.
  destruct (after "data:image/" s) as [rest |] eqn:E1; [| auto].
  destruct (wordRun_spec rest) as [Hs Hw].
  destruct (wordRun rest) as [w rest'] eqn:E2. simpl in Hs, Hw.
  destruct w as [| a w]; [auto |].
  destruct (after ";base64," rest') as [d |] eqn:E3; [| auto].
  right. exists (String a w). split; [discriminate |]. split; [exact Hw |].
  apply after_Some in E1, E3. unfold dataUrl. rewrite E1, Hs, E3.
  reflexivity.
Qed.

Section Request.
Variable Config : Type.
Variable theConfig : Config.
Variable generateContent : Request Config -> Outcome (option string).
Variable JSON_parse : string -> option value.

(** X12: the request does not depend on the subtype the data URL names.
    Its inline data is the payload, declared as image/jpeg whatever the
    data URL said (png, webp), so two data URLs with the same payload
    give the same request, and [analyzeImage] settles on both alike. *)
Theorem request_ignores_subtype (w w' payload : string) :
  w <> "" -> allWord w = true -> w' <> "" -> allWord w' = true ->
  parts (contents (request Config theConfig (dataUrl w payload)))
  = Part_inlineData (mkInlineData "image/jpeg" payload)
      :: tl (parts (contents (request Config theConfig payload)))
  /\ request Config theConfig (dataUrl w payload)
     = request Config theConfig (dataUrl w' payload)
  /\ GeminiRequest.analyzeImage Config theConfig generateContent JSON_parse
       (dataUrl w payload)
     = GeminiRequest.analyzeImage Config theConfig generateContent JSON_parse
         (dataUrl w' payload).
Proof.
  intros H1 H2 H3 H4. unfold GeminiRequest.analyzeImage, request.
  rewrite !base64Data_strips by assumption. auto.
Qed.

End Request.

Lemma request_ignores_subtype_example :
  "png" <> "" /\ allWord "png" = true /\ "jpeg" <> "" /\ allWord "jpeg" = true
  /\ request unit tt (dataUrl "png" "iVBORw0KGgo=")
     = request unit tt (dataUrl "jpeg" "iVBORw0KGgo=").
Proof.
  split; [discriminate |]. split; [reflexivity |].
  split; [discriminate |]. split; [reflexivity |].
  apply (request_ignores_subtype unit tt (fun _ => Rejected) (fun _ => None)
           "png" "jpeg" "iVBORw0KGgo=");
    first [discriminate | reflexivity].
Defined.

(** *** When [analyzeImage] rejects *)

(** X13: [analyzeImage] rejects in exactly these cases: the request
    failed; the response has no text, or the empty text; the text is not
    JSON; the text parsed to [null].  In every other case it resolves. *)
Theorem analyzeImage_rejects_iff (JSON_parse : string -> option value)
    (response : Outcome (option string)) :
  GeminiService.analyzeImage JSON_parse response = Rejected
  <-> match response with
      | Rejected | Resolved None => True
      | Resolved (Some text) =>
          text = "" \/ JSON_parse text = None
          \/ exists parsed, JSON_parse text = Some parsed /\ nullish parsed = true
      end.
Proof.
  destruct response as [[text |] |]; simpl; [| tauto | tauto].
  destruct (String.eqb text "") eqn:E; simpl.
  - apply String.eqb_eq in E. tauto.
  - apply String.eqb_neq in E.
    destruct (JSON_parse text) as [parsed |]; [| tauto].
    destruct parsed; simpl; split; intros H; try discriminate H; try tauto;
      try (right; right; eexists; split; reflexivity);
      destruct H as [H | [H | (p & [= <-] & H)]];
      try contradiction; discriminate.
Qed.

(** X14: a text that is JSON but not an object (a number, a string, a
    boolean, an array) does not make [analyzeImage] fail: it resolves
    with the result in which every field is its default. *)
Theorem non_object_gives_defaults (JSON_parse : string -> option value)
    (text : string) (parsed : value) :
  text <> "" -> JSON_parse text = Some parsed ->
  nullish parsed = false -> is_object parsed = false ->
  GeminiService.analyzeImage JSON_parse (Resolved (Some text)) = Resolved defaults.
Proof.
  intros Hne Hp Hn Ho. simpl.
  apply String.eqb_neq in Hne. rewrite Hne. simpl. rewrite Hp.
  destruct parsed; try discriminate; reflexivity.
Qed.

Lemma non_object_gives_defaults_example :
  "[]" <> "" /\ nullish (VArray []) = false /\ is_object (VArray []) = false
  /\ GeminiService.analyzeImage (fun _ => Some (VArray [])) (Resolved (Some "[]"))
     = Resolved defaults.
Proof.
  split; [discriminate |]. split; [reflexivity |]. split; [reflexivity |].
  apply (non_object_gives_defaults (fun _ => Some (VArray [])) "[]" (VArray []));
    first [discriminate | reflexivity].
Defined.

(** *** The sanitiser as a function of the parsed object *)

Lemma or_else_idem (v d : value) : or_else (or_else v d) d = or_else v d.
Proof.
  unfold or_else.
  destruct (ToBoolean v) eqn:E; [rewrite E |]; destruct (ToBoolean d); reflexivity.
Qed.

Lemma array_or_empty_idem (v : value) :
  array_or_empty (array_or_empty v) = array_or_empty v.
Proof. unfold array_or_empty. destruct (Array_isArray v) eqn:E; [rewrite E |]; reflexivity. Qed.

Lemma sanitize_object (fields : gmap string value) :
  sanitize (VObject fields)
  = Some (mkDiagnosisResponse
            (or_else (prop (VObject fields) "object_detected") (VString "Unknown Object"))
            (or_else (prop (VObject fields) "issue_detected") (VString "Analysis Pending"))
            (or_else (prop (VObject fields) "confidence") (VString "Unknown"))
            (array_or_empty (prop (VObject fields) "safety_warnings"))
            (array_or_empty (prop (VObject fields) "tools_required"))
            (array_or_empty (prop (VObject fields) "household_tool_alternatives"))
            (array_or_empty (prop (VObject fields) "steps"))
            (array_or_empty (prop (VObject fields) "annotations"))
            (or_else (prop (VObject fields) "camera_guidance") (VString "None"))
            (or_else (prop (VObject fields) "cause_explanation")
                     (VString "No explanation provided."))
            (or_else (prop (VObject fields) "prevention_tips")
                     (VString "No specific tips."))).
Proof. reflexivity. Qed.

(** X15: the sanitiser leaves its own results alone: a result of
    [analyzeImage], taken as the parsed object of another run, comes out
    unchanged. *)
Theorem sanitize_fixed_point (parsed : value) (r : DiagnosisResponse) :
  sanitize parsed = Some r -> sanitize (DiagnosisResponse_value r) = Some r.
Proof.
  intros H.
  assert (Hr : exists a b c d e f g h i j k,
             r = mkDiagnosisResponse (or_else a (VString "Unknown Object"))
                   (or_else b (VString "Analysis Pending"))
                   (or_else c (VString "Unknown"))
                   (array_or_empty d) (array_or_empty e) (array_or_empty f)
                   (array_or_empty g) (array_or_empty h)
                   (or_else i (VString "None"))
                   (or_else j (VString "No explanation provided."))
                   (or_else k (VString "No specific tips."))).
  { destruct parsed; try discriminate H; simpl in H; injection H as <-;
      repeat eexists. }
  destruct Hr as (a & b & c & d & e & f & g & h & i & j & k & ->).
  unfold DiagnosisResponse_value. rewrite sanitize_object. unfold prop, get.
  cbn [object_detected issue_detected confidence safety_warnings tools_required
       household_tool_alternatives steps annotations camera_guidance
       cause_explanation prevention_tips].
  repeat (rewrite ?lookup_insert_eq; rewrite ?lookup_insert_ne by discriminate).
  cbn [default from_option].
  unfold Datatypes.id. rewrite !or_else_idem, !array_or_empty_idem. reflexivity.
Qed.

Lemma sanitize_fixed_point_example :
  sanitize (VString "ok") = Some defaults
  /\ sanitize (DiagnosisResponse_value defaults) = Some defaults.
Proof.
  split; [reflexivity |].
  apply (sanitize_fixed_point (VString "ok") defaults eq_refl).
Defined.

(** X16: of the parsed object the sanitiser reads the eleven fields of
    the interface and nothing else: two objects that agree on them give
    the same result, so a property the schema does not name never
    reaches the interface. *)
Theorem sanitize_reads_its_fields (fields fields' : gmap string value) :
  Forall (fun k => fields !! k = fields' !! k) fieldNames ->
  sanitize (VObject fields) = sanitize (VObject fields').
Proof.
  intros H. rewrite !sanitize_object. unfold prop, get.
  unfold fieldNames in H. simpl in H.
  repeat match goal with
  | H : Forall _ (_ :: _) |- _ => apply Forall_cons in H as [-> H]
  end.
  reflexivity.
Qed.

Lemma sanitize_reads_its_fields_example :
  Forall (fun k => (∅ : gmap string value) !! k
                   = ({[ "thoughts" := VString "x" ]} : gmap string value) !! k)
         fieldNames
  /\ sanitize (VObject ∅) = sanitize (VObject {[ "thoughts" := VString "x" ]}).
Proof.
  assert (H : Forall (fun k => (∅ : gmap string value) !! k
                               = ({[ "thoughts" := VString "x" ]} : gmap string value) !! k)
                     fieldNames).
  { unfold fieldNames. simpl.
    repeat constructor; rewrite lookup_empty, lookup_singleton_ne by discriminate;
      reflexivity. }
  split; [exact H |].
  apply (sanitize_reads_its_fields ∅ {[ "thoughts" := VString "x" ]} H).
Defined.

End Service.

(** ** The application: [App.tsx] with the service, the overlay and the panel *)

Module Application.
Import Js App.

Lemma run_snoc JSON_parse events e r :
  run JSON_parse (events ++ [e]) r
  = match run JSON_parse events r with
    | Some r' => step JSON_parse e r'
    | None => None
    end.
Proof.
  revert r. induction events as [| a events IH]; intros r; simpl.
  - destruct (step JSON_parse e r); reflexivity.
  - destruct (step JSON_parse a r); [apply IH | reflexivity].
Qed.

Lemma fold_left_snoc {A B : Type} (f : A -> B -> A) l b a :
  fold_left f (l ++ [b]) a = f (fold_left f l a) b.
Proof. rewrite fold_left_app. reflexivity. Qed.

Lemma analyzeImage_sanitised JSON_parse response d :
  GeminiService.analyzeImage JSON_parse response = Resolved d -> sanitised d.
Proof.
  unfold GeminiService.analyzeImage.
  destruct response as [[text |] |]; try discriminate.
  destruct (negb (String.eqb text "")); try discriminate.
  destruct (JSON_parse text) as [parsed |]; try discriminate.
  destruct (GeminiService.sanitize parsed) as [r |] eqn:E; try discriminate.
  intros [= <-]. exists parsed. exact E.
Qed.

Lemma step_consistent JSON_parse e r r' :
  consistent r -> step JSON_parse e r = Some r' ->
  consistent r'
  /\ imageSrc (state r')
     = match e with
       | Capture imageData => Some imageData
       | ResetClick => None
       | _ => imageSrc (state r)
       end
  /\ viewportDims r'
     = match e with
       | Resize w h => mkDims w h
       | _ => viewportDims r
       end.
Proof.
  destruct r as [[st src res err] dims n].
  unfold consistent, step, render, resetOffered; simpl.
  destruct e as [imageData | response | | w h]; simpl.
  - destruct st; simpl; try discriminate.
    intros [[= -> -> ->] ->] [= <-]. simpl. eauto 10.
  - destruct n as [| n]; [discriminate |].
    intros H [= <-]. simpl.
    destruct st; simpl in H; try contradiction;
      try (destruct H as (_ & H); discriminate H);
      try (destruct H as (_ & _ & _ & H); discriminate H).
    destruct H as ((s & ->) & -> & -> & [= ->]).
    destruct (GeminiService.analyzeImage JSON_parse response) as [d |] eqn:E; simpl.
    + split; [| auto]. split; [eauto |]. split; [| auto].
      exists d. split; [reflexivity | eapply analyzeImage_sanitised, E].
    + split; [| auto]. split; [eauto |]. auto.
  - intros H Hs. destruct st; simpl in H; try contradiction.
    + discriminate Hs.
    + destruct H as ((s & ->) & _). simpl in Hs.
      destruct (String.eqb s ""); discriminate Hs.
    + destruct H as (_ & _ & _ & ->).
      destruct (_ || _) in Hs; [| discriminate Hs].
      injection Hs as <-. simpl. auto.
    + destruct H as (_ & _ & _ & ->).
      destruct (_ || _) in Hs; [| discriminate Hs].
      injection Hs as <-. simpl. auto.
  - intros H [= <-]. simpl. auto.
Qed.

Lemma reachable JSON_parse innerWidth innerHeight events r :
  run JSON_parse events (mounted innerWidth innerHeight) = Some r ->
  consistent r
  /\ imageSrc (state r) = imageAfter events
  /\ viewportDims r = dimsAfter events (mkDims innerWidth innerHeight).
Proof.
  revert r. induction events as [| e events IH] using rev_ind; intros r.
  - intros [= <-]. unfold consistent. simpl. auto.
  - rewrite run_snoc.
    destruct (run JSON_parse events (mounted innerWidth innerHeight)) as [r1 |];
      [| discriminate].
    destruct (IH r1 eq_refl) as (Hc & Hi & Hd). intros Hs.
    destruct (step_consistent JSON_parse e r1 r Hc Hs) as (Hc' & Hi' & Hd').
    split; [exact Hc' |].
    unfold imageAfter, dimsAfter. rewrite !fold_left_snoc.
    fold (imageAfter events). fold (dimsAfter events (mkDims innerWidth innerHeight)).
    rewrite Hi', Hd', Hi, Hd. destruct e; auto.
Qed.

(** A capture whose analysis fails, in a window of 800 by 600. *)
Lemma failed_capture :
  run Examples.parseEmptyObject [Capture "data:,"; Settle Rejected] (mounted 800 600)
  = Some (mkRunning (failed (analyzing "data:," initialState)) (mkDims 800 600) 0).
Proof. reflexivity. Qed.

(** A capture whose analysis gives the empty object. *)
Lemma answered_capture :
  run Examples.parseEmptyObject [Capture "data:,"; Settle (Resolved (Some "{}"))]
      (mounted 800 600)
  = Some (mkRunning (complete GeminiRequest.defaults (analyzing "data:," initialState))
                    (mkDims 800 600) 0).
Proof. reflexivity. Qed.

(** X17: however the events fall, the component is in one of four
    kinds of state: idle with nothing kept; analyzing with an image, no
    result, no error and one call in flight; complete with an image and
    a result that [analyzeImage] built; error with an image, no result
    and the one fixed message.  The status 'capturing' never occurs, no
    second call is started while one is in flight, the image is that of
    the last capture, and the size is that of the last resize. *)
Theorem app_consistent (JSON_parse : string -> option value)
    (innerWidth innerHeight : R) (events : list Event) (r : Running) :
  run JSON_parse events (mounted innerWidth innerHeight) = Some r ->
  consistent r
  /\ status (state r) <> Capturing
  /\ (inFlight r <= 1)%nat
  /\ imageSrc (state r) = imageAfter events
  /\ viewportDims r = dimsAfter events (mkDims innerWidth innerHeight).
Proof.
  intros H. destruct (reachable _ _ _ _ _ H) as (Hc & Hi & Hd).
  split; [exact Hc |].
  split; [intros E; unfold consistent in Hc; rewrite E in Hc; exact Hc |].
  split; [| auto].
  unfold consistent in Hc. destruct (status (state r)); simpl in Hc; try contradiction.
  - destruct Hc as (_ & ->). auto.
  - destruct Hc as (_ & _ & _ & ->). auto.
  - destruct Hc as (_ & _ & _ & ->). auto.
  - destruct Hc as (_ & _ & _ & ->). auto.
Qed.

Lemma app_consistent_example :
  run Examples.parseEmptyObject [Capture "data:,"; Settle Rejected] (mounted 800 600)
  = Some (mkRunning (failed (analyzing "data:," initialState)) (mkDims 800 600) 0)
  /\ consistent (mkRunning (failed (analyzing "data:," initialState)) (mkDims 800 600) 0).
Proof.
  split; [exact failed_capture |].
  apply (app_consistent Examples.parseEmptyObject 800 600
           [Capture "data:,"; Settle Rejected] _ failed_capture).
Defined.

(** X18: whenever [AnnotationCanvas] is mounted, its [annotations]
    prop is an array, so the defensive check of the render pass is never
    taken in the running application; its size is the window's; the
    status is complete, the photo of the last capture is shown, and
    [ResultsPanel] is mounted with the result the annotations come
    from. *)
Theorem overlay_gets_an_array (JSON_parse : string -> option value)
    (innerWidth innerHeight : R) (events : list Event) (r : Running)
    (w h : R) (annotations : value) :
  run JSON_parse events (mounted innerWidth innerHeight) = Some r ->
  annotationCanvas (render (state r) (viewportDims r)) = Some (w, h, annotations) ->
  Array_isArray annotations = true
  /\ AnnotationCanvas.not_a_list annotations = false
  /\ mkDims w h = dimsAfter events (mkDims innerWidth innerHeight)
  /\ status (state r) = Complete
  /\ (exists src, image (render (state r) (viewportDims r)) = Some src
                  /\ imageAfter events = Some src /\ src <> "")
  /\ exists d, resultsPanel (render (state r) (viewportDims r)) = Some d
               /\ annotations = GeminiService.annotations d.
Proof.
  intros H. destruct (reachable _ _ _ _ _ H) as (Hc & Hi & Hd).
  rewrite <- Hi, <- Hd. clear H Hi Hd.
  destruct r as [[st src res err] [vw vh] n].
  unfold consistent in Hc. unfold render. simpl in *.
  destruct st; simpl; rewrite ?andb_false_r; intros Hm; try discriminate Hm.
  destruct Hc as ((s & ->) & (d & -> & (parsed & Hp)) & _). simpl in *.
  destruct (String.eqb s "") eqn:Es; simpl in *; [discriminate |].
  injection Hm as <- <- <-.
  assert (Ha : Array_isArray (GeminiService.annotations d) = true).
  { destruct parsed; simpl in Hp; try discriminate Hp; injection Hp as <-; simpl;
      first [reflexivity | apply Properties.array_or_empty_isArray]. }
  split; [exact Ha |].
  split; [apply Properties.array_not_a_list, Ha |].
  split; [reflexivity |]. split; [reflexivity |].
  split; [| eauto].
  exists s. apply String.eqb_neq in Es. auto.
Qed.

Lemma overlay_gets_an_array_example :
  annotationCanvas
    (render (complete GeminiRequest.defaults (analyzing "data:," initialState))
            (mkDims 800 600))
  = Some (800, 600, VArray [])
  /\ AnnotationCanvas.not_a_list (VArray []) = false.
Proof.
  split; [reflexivity |].
  apply (overlay_gets_an_array Examples.parseEmptyObject 800 600
           [Capture "data:,"; Settle (Resolved (Some "{}"))] _ 800 600 (VArray [])
           answered_capture eq_refl).
Defined.

(** X19: when no captured image is the empty string, the screen always
    offers the way on: the camera while idle; the spinner, and nothing
    to click, while analyzing, when a further capture and a reset are
    both refused; the close button once complete or failed. *)
Theorem never_stranded (JSON_parse : string -> option value)
    (innerWidth innerHeight : R) (events : list Event) (r : Running) :
  capturesNonEmpty events ->
  run JSON_parse events (mounted innerWidth innerHeight) = Some r ->
  let screen := render (state r) (viewportDims r) in
  match status (state r) with
  | Idle => cameraCapture screen = true /\ resetOffered screen = false
  | Analyzing =>
      spinner screen = true /\ cameraCapture screen = false
      /\ resetOffered screen = false
      /\ (forall imageData, step JSON_parse (Capture imageData) r = None)
      /\ step JSON_parse ResetClick r = None
  | Complete | Error => cameraCapture screen = false /\ closeButton screen = true
  | Capturing => False
  end.
Proof.
  intros Hne H. destruct (reachable _ _ _ _ _ H) as (Hc & Hi & _).
  assert (Hsrc : forall src, imageAfter events = Some src -> src <> "").
  { clear H Hc Hi. unfold imageAfter.
    induction events as [| e events IH] using rev_ind; [discriminate |].
    apply Forall_app in Hne as [Hne He]. apply Forall_cons in He as [He _].
    rewrite fold_left_snoc. destruct e; try discriminate; auto.
    intros src [= <-]. exact He. }
  rewrite <- Hi in Hsrc. clear H Hi Hne.
  destruct r as [[st src res err] dims n].
  unfold consistent in Hc. unfold step, resetOffered, render. simpl in *.
  destruct st; simpl; try contradiction.
  - destruct Hc as [[= -> -> ->] _]. auto.
  - destruct Hc as ((s & ->) & -> & -> & ->). simpl.
    pose proof (Hsrc s eq_refl) as Hs. apply String.eqb_neq in Hs. rewrite Hs. simpl. auto.
  - destruct Hc as ((s & ->) & _). simpl.
    pose proof (Hsrc s eq_refl) as Hs. apply String.eqb_neq in Hs. rewrite Hs. simpl. auto.
  - destruct Hc as ((s & ->) & _). simpl.
    pose proof (Hsrc s eq_refl) as Hs. apply String.eqb_neq in Hs. rewrite Hs. simpl. auto.
Qed.

Lemma never_stranded_example :
  capturesNonEmpty [Capture "data:,"; Settle Rejected]
  /\ closeButton (render (failed (analyzing "data:," initialState)) (mkDims 800 600)) = true.
Proof.
  assert (H : capturesNonEmpty [Capture "data:,"; Settle Rejected]).
  { repeat constructor. discriminate. }
  split; [exact H |].
  apply (never_stranded Examples.parseEmptyObject 800 600
           [Capture "data:,"; Settle Rejected] _ H failed_capture).
Defined.

(** X20: the empty string as image, which [handleCapture] takes as any
    other: when the analysis then fails, the screen shows the header and
    nothing else, neither the message nor a control, and no event but a
    resize is possible any more. *)
Theorem empty_image_dead_end (JSON_parse : string -> option value)
    (innerWidth innerHeight : R) (events : list Event) (r : Running)
    (response : Outcome (option string)) :
  run JSON_parse events (mounted innerWidth innerHeight) = Some r ->
  status (state r) = Idle ->
  GeminiService.analyzeImage JSON_parse response = Rejected ->
  exists r',
    run JSON_parse (events ++ [Capture ""; Settle response])
        (mounted innerWidth innerHeight) = Some r'
    /\ status (state r') = Error
    /\ render (state r') (viewportDims r') = blank
    /\ forall e, step JSON_parse e r' = None \/ exists w h, e = Resize w h.
Proof.
  intros H Hidle Hrej. destruct (reachable _ _ _ _ _ H) as (Hc & _).
  change (events ++ [Capture ""; Settle response])
    with (events ++ [Capture ""] ++ [Settle response]).
  rewrite app_assoc, !run_snoc, H.
  destruct r as [[st src res err] dims n].
  unfold consistent in Hc. simpl in Hidle. subst st. simpl in Hc.
  destruct Hc as [[= -> -> ->] ->].
  unfold step at 2. simpl. unfold step. simpl. rewrite Hrej. simpl.
  eexists. split; [reflexivity |]. split; [reflexivity |]. split; [reflexivity |].
  intros e. destruct e as [imageData | resp | | w h]; simpl; eauto.
Qed.

Lemma empty_image_dead_end_example :
  exists r',
    run Examples.parseEmptyObject ([] ++ [Capture ""; Settle Rejected]) (mounted 800 600)
    = Some r'
    /\ status (state r') = Error
    /\ render (state r') (viewportDims r') = blank
    /\ forall e, step Examples.parseEmptyObject e r' = None \/ exists w h, e = Resize w h.
Proof.
  apply (empty_image_dead_end Examples.parseEmptyObject 800 600 [] (mounted 800 600)
           Rejected eq_refl eq_refl eq_refl).
Defined.

(** *** The panel on a result of [analyzeImage] *)

Lemma array_or_empty_truthy v : ToBoolean (GeminiService.array_or_empty v) = true.
Proof. destruct v; reflexivity. Qed.

(** X21: on a result of [analyzeImage] the fallbacks of the panel are
    never taken: the confidence badge shows the confidence of the
    result, not the fallback N/A; the list fields are truthy, so the
    tests [result.steps ? ... : ''] and [result.tools_required && ...]
    always pass and only the lengths decide; and when the response had
    no camera guidance, the default None that [analyzeImage] puts in is
    not shown as an alert, whatever [toLowerCase] does. *)
Theorem panel_fallbacks_not_taken (toLowerCase : string -> string)
    (parsed : value) (result : GeminiService.DiagnosisResponse) :
  GeminiService.sanitize parsed = Some result ->
  ResultsPanel.confidenceBadge result = GeminiService.confidence result
  /\ Forall (fun '(_, field) => ToBoolean (field result) = true)
            GeminiService.arrayFields
  /\ (ToBoolean (GeminiService.prop parsed "camera_guidance") = false ->
      GeminiService.camera_guidance result = VString "None"
      /\ ResultsPanel.cameraGuidanceAlert toLowerCase "None" = false).
Proof.
  intros H.
  destruct (Properties.sanitize_fields parsed result H) as [Ha Hs].
  unfold GeminiService.arrayFields, GeminiService.stringFields in *.
  repeat match goal with
  | H : Forall _ (_ :: _) |- _ => apply Forall_cons in H as [? H]
  end.
  split; [| split].
  - unfold ResultsPanel.confidenceBadge, or_else at 1.
    replace (ToBoolean (GeminiService.confidence result)) with true; [reflexivity |].
    symmetry.
    match goal with E : GeminiService.confidence result = _ |- _ => rewrite E end.
    apply Properties.or_else_truthy. discriminate.
  - repeat constructor;
      match goal with
      | E : ?f result = GeminiService.array_or_empty _ |- ToBoolean (?f result) = true =>
          rewrite E; apply array_or_empty_truthy
      end.
  - intros Hf.
    match goal with E : GeminiService.camera_guidance result = _ |- _ => rewrite E end.
    unfold or_else. rewrite Hf. auto.
Qed.

Lemma panel_fallbacks_not_taken_example :
  GeminiService.sanitize (VObject ∅) = Some GeminiRequest.defaults
  /\ ResultsPanel.confidenceBadge GeminiRequest.defaults = VString "Unknown".
Proof.
  assert (H : GeminiService.sanitize (VObject ∅) = Some GeminiRequest.defaults)
    by reflexivity.
  split; [exact H |].
  apply (panel_fallbacks_not_taken (fun s => s) (VObject ∅) GeminiRequest.defaults H).
Defined.

End Application.
